(** * Doppler-shift compensation tables: a shallow embedding of [doppler.py]

    The arithmetic of [doppler.py] is embedded over the rationals [Q]:
    a Python [float] is read as the exact rational it denotes, [+ - * /]
    are the exact operations, and [/] raises [ZeroDivisionError] on a zero
    divisor as Python does.  The module constants [HOUR], [MINUTE],
    [SECOND] and [math.pi] are floats computed once: they hold the exact
    value of their binary64 number.  A division by a non-zero literal or module
    constant ([1_000_000], [SECOND], [2 * math.pi]) cannot raise and is
    written as the plain operation.  The orbital-mechanics library (ephem)
    is not part of the repository: what the code reads from it is taken as
    a parameter of the development. *)

From Stdlib Require Import String Ascii.
From Stdlib Require Import ZArith QArith Qround Qabs List Sorted Lia Lqa Bool.
Import ListNotations.

Open Scope Q_scope.

(** ** Python results: a value or a raised exception *)

Inductive exn : Set :=
| ZeroDivisionError
| ValueError
| UnboundLocalError
| LibraryError.

Inductive result (A : Type) : Type :=
| Ok (a : A)
| Raise (e : exn).

Arguments Ok {A} a.
Arguments Raise {A} e.

Definition rbind {A B : Type} (r : result A) (k : A -> result B) : result B :=
  match r with
  | Ok a => k a
  | Raise e => Raise e
  end.

Declare Scope result_scope.
Delimit Scope result_scope with result.
Notation "x <- r ;; k" := (rbind r (fun x => k))
  (at level 61, r at next level, right associativity) : result_scope.
Notation "' p <- r ;; k" := (rbind r (fun p => k))
  (at level 61, p pattern, r at next level, right associativity) : result_scope.

(** True division [a / b]: [ZeroDivisionError] when the divisor is zero. *)
Definition py_div (a b : Q) : result Q :=
  if Qeq_bool b 0 then Raise ZeroDivisionError else Ok (a / b).

(** [int(x)]: truncation towards zero. *)
Definition py_int (x : Q) : Z := Z.quot (Qnum x) (Zpos (Qden x)).

(** [range(n)] *)
Definition py_range (n : Z) : list Z := map Z.of_nat (seq 0 (Z.to_nat n)).

(** ** Module constants *)

Definition C : Q := 299792458.

(** [HOUR = 1 / 24], [MINUTE = HOUR / 60], [SECOND = MINUTE / 60]: each is
    the binary64 number nearest to the quotient,
    [0x1.5555555555555p-5], [0x1.6c16c16c16c16p-11] and
    [0x1.845c8a0ce5129p-17] (lemma [constants_rounded]).  [SECOND] is
    [6832127434707241 * 2^-69] day, a little below [1/86400]. *)
Definition HOUR : Q := 6004799503160661 # 144115188075855872.
Definition MINUTE : Q := 6405119470038038 # 9223372036854775808.
Definition SECOND : Q := 6832127434707241 # 590295810358705651712.

(** [math.pi], the binary64 value 0x1.921fb54442d18p+1. *)
Definition math_pi : Q := 884279719003555 # 281474976710656.

(** ** Doppler arithmetic *)

Definition doppler_shift (f0 vel : Q) : result Q :=
  (let f0 := f0 * 1000000 in
   q <- py_div C (C + vel) ;;
   let f := q * f0 in
   let shift := f0 - f in
   Ok shift)%result.

Definition should_shift_freqs (f f_left f_right : Q) : bool :=
  let left_diff := Qabs (f_left - f) in
  let right_diff := Qabs (f_right - f) in
  Qle_bool right_diff left_diff.

Definition doppler_convert (f_orig f_shift f_new : Q) : result Q :=
  (let f_orig := f_orig * 1000000 in
   let f_new := f_new * 1000000 in
   let f := f_orig + f_shift in
   doppler_const <- py_div f f_orig ;;
   let f_new_shift := doppler_const * f_new in
   let new_shift := f_new_shift - f_new in
   Ok new_shift)%result.

(** ** The observer, the satellite and what ephem computes from them *)

(** [ephem.Observer]: the fields [main] assigns, and the date. Dates are
    days, as in ephem. *)
Record Observer : Type := mkObserver {
  lat : Q;
  lon : Q;
  elev : Q;
  date : Q
}.

Definition with_date (obs : Observer) (d : Q) : Observer :=
  mkObserver (lat obs) (lon obs) (elev obs) d.

(** [ephem.EarthSatellite], identified by its catalogue number. *)
Record EarthSatellite : Type := mkSat { catalog_number : Z }.

(** The tuple [obs.next_pass(sat)] returns; the code reads indices 0, 3 and 4. *)
Record Pass : Type := mkPass {
  rise_time : Q;      (* [0] *)
  rise_az : Q;        (* [1] *)
  max_alt_time : Q;   (* [2] *)
  max_alt : Q;        (* [3], radians *)
  set_time : Q;       (* [4] *)
  set_az : Q          (* [5] *)
}.

(** ** Stateful code: the observer is mutated in place, exceptions propagate,
    and a mutation made before an exception stays. *)

Definition M (A : Type) : Type := Observer -> result A * Observer.

Definition ret {A : Type} (a : A) : M A := fun obs => (Ok a, obs).

Definition bind {A B : Type} (m : M A) (k : A -> M B) : M B :=
  fun obs =>
    match m obs with
    | (Ok a, obs') => k a obs'
    | (Raise e, obs') => (Raise e, obs')
    end.

Definition lift {A : Type} (r : result A) : M A := fun obs => (r, obs).

(** [obs.date = d] *)
Definition set_date (d : Q) : M unit := fun obs => (Ok tt, with_date obs d).

(** [obs.date] *)
Definition get_date : M Q := fun obs => (Ok (date obs), obs).

Declare Scope M_scope.
Delimit Scope M_scope with M.
Notation "x <- m ;; k" := (bind m (fun x => k))
  (at level 61, m at next level, right associativity) : M_scope.
Notation "' p <- m ;; k" := (bind m (fun p => k))
  (at level 61, p pattern, m at next level, right associativity) : M_scope.
Notation "m ;;; k" := (bind m (fun _ => k))
  (at level 61, right associativity) : M_scope.

(** [for i in l: s = body(i, s)] *)
Fixpoint for_each {S : Type} (l : list Z) (body : Z -> S -> M S) (s : S) : M S :=
  match l with
  | [] => ret s
  | i :: l' => (s' <- body i s ;; for_each l' body s')%M
  end.

(** Tuple unpacking [a, b = t] and [a, b, c = t]: [ValueError] when the
    number of values differs from the number of targets. *)
Definition unpack2 (t : list Q) : result (Q * Q) :=
  match t with
  | [a; b] => Ok (a, b)
  | _ => Raise ValueError
  end.


(** A memory channel [[rx, tx]] and a switch entry
    [[curr_mem, obs.date, shifted_rx, shifted_tx]]. *)
Abbreviation channel := (Q * Q)%type (only parsing).

Record switch : Type := mkSwitch {
  sw_mem : Z;
  sw_time : Q;
  sw_rx : Q;
  sw_tx : Q
}.

(** [best_channel]: the loop state is [(best, best_diff)]. *)
Definition best_channel_step (freq : Q) (mems : list channel)
    (st : Z * Q) (i : Z) : Z * Q :=
  let '(best, best_diff) := st in
  let diff := Qabs (fst (nth (Z.to_nat i) mems (0, 0)) - freq) in
  if (if Qlt_le_dec diff best_diff then true else false) || (best =? -1)%Z
  then (i, diff)
  else (best, best_diff).

Definition best_channel (freq : Q) (mems : list channel) : Z :=
  fst (fold_left (best_channel_step freq mems)
         (py_range (Z.of_nat (length mems))) ((-1)%Z, 0)).

(** [int(pass_length // SECOND)]: the floor division yields the floor of
    the quotient, as a float. *)
Definition pass_intervals (AOS LOS : Q) : Z :=
  let pass_length := LOS - AOS in
  py_int (inject_Z (Qfloor (pass_length / SECOND))).

Section Ephem.

(** [sat.compute(obs); sat.range_velocity], in m/s. *)
Variable range_velocity : Observer -> EarthSatellite -> Q.

(** [obs.next_pass(sat)]: a pass, or an exception of the library. *)
Variable next_pass_of : Observer -> EarthSatellite -> result Pass.

Definition compute_doppler (sat : EarthSatellite) (rx_freq tx_freq : Q)
    : M (list Q) :=
  fun obs =>
    (let velocity := range_velocity obs sat in
     tx_shift <- lift (doppler_shift tx_freq velocity) ;;
     rx_shift <- lift (doppler_shift rx_freq (-1 * velocity)) ;;
     ret [rx_shift; tx_shift])%M obs.

Definition compute_doppler_freqs (sat : EarthSatellite) (AOS LOS : Q)
    (channels : Z) (rx_freq tx_freq : Q) : M (list channel) :=
  (let mems := [] in
   set_date AOS ;;;
   t <- compute_doppler sat rx_freq tx_freq ;;
   '(start_rx, start_tx) <- lift (unpack2 t) ;;
   set_date LOS ;;;
   t <- compute_doppler sat rx_freq tx_freq ;;
   '(end_rx, end_tx) <- lift (unpack2 t) ;;
   rx_interval <- lift (py_div (end_rx - start_rx) (inject_Z (channels - 1))) ;;
   tx_interval <- lift (py_div (end_tx - start_tx) (inject_Z (channels - 1))) ;;
   ret (fold_left
          (fun mems interval =>
             let shift_rx := start_rx + (rx_interval * inject_Z interval) in
             let shift_tx := start_tx + (tx_interval * inject_Z interval) in
             mems ++ [(rx_freq + shift_rx / 1000000,
                       tx_freq + shift_tx / 1000000)])
          (py_range channels) mems))%M.


(** The body of the loop of [compute_shift_times]; the loop state is
    [(curr_mem, switch_times)]. *)
Definition shift_times_body (sat : EarthSatellite) (AOS : Q)
    (mems : list channel) (rx_freq tx_freq : Q)
    (i : Z) (st : Z * list switch) : M (Z * list switch) :=
  (let '(curr_mem, switch_times) := st in
   set_date (AOS + (inject_Z i * SECOND)) ;;;
   t <- compute_doppler sat rx_freq tx_freq ;;
   '(rx_shift, tx_shift) <- lift (unpack2 t) ;;
   let shifted_rx := rx_freq + (rx_shift / 1000000) in
   let shifted_tx := tx_freq + (tx_shift / 1000000) in
   let best_mem := best_channel shifted_rx mems in
   if (curr_mem <? Z.of_nat (length mems) - 1)%Z && negb (curr_mem =? best_mem)%Z
   then
     let curr_mem := best_mem in
     d <- get_date ;;
     ret (curr_mem, switch_times ++ [mkSwitch curr_mem d shifted_rx shifted_tx])
   else ret (curr_mem, switch_times))%M.

Definition compute_shift_times (sat : EarthSatellite) (AOS LOS : Q)
    (mems : list channel) (rx_freq tx_freq : Q) : M (list switch) :=
  (let switch_times := [] in
   let curr_mem := (-1)%Z in
   let intervals := pass_intervals AOS LOS in
   st <- for_each (py_range intervals)
           (shift_times_body sat AOS mems rx_freq tx_freq)
           (curr_mem, switch_times) ;;
   ret (snd st))%M.

(** [next_high_pass].  The [while] loop may run for ever, so the loop is
    given fuel: [None] means the fuel ran out before the loop was left.
    The loop state holds the local variables; [hp_next_pass] is [None]
    while [next_pass] is still unbound. *)
Record hp_state : Type := mkHp {
  hp_elevation : Q;
  hp_limit : Z;
  hp_next_pass : option Pass
}.

(** The test of the loop: [elevation < min_elevation and limit > 0]. *)
Definition hp_continue (min_elevation : Q) (st : hp_state) : bool :=
  (if Qlt_le_dec (hp_elevation st) min_elevation then true else false)
  && (0 <? hp_limit st)%Z.

Fixpoint next_high_pass_loop (fuel : nat) (sat : EarthSatellite)
    (min_elevation : Q) (st : hp_state) (obs : Observer)
    : option (result hp_state * Observer) :=
  if hp_continue min_elevation st
  then
    match fuel with
    | O => None
    | S fuel' =>
        match next_pass_of obs sat with
        | Raise e => Some (Raise e, obs)
        | Ok next_pass =>
            let elevation := (max_alt next_pass * 360) / (2 * math_pi) in
            let obs := with_date obs (set_time next_pass) in
            let limit := (hp_limit st - 0)%Z in
            next_high_pass_loop fuel' sat min_elevation
              (mkHp elevation limit (Some next_pass)) obs
        end
    end
  else Some (Ok st, obs).

(** [return next_pass if limit > 0 else None]: reading the unbound
    [next_pass] raises [UnboundLocalError]. *)
Definition next_high_pass_return (st : hp_state) : result (option Pass) :=
  if (0 <? hp_limit st)%Z
  then match hp_next_pass st with
       | Some next_pass => Ok (Some next_pass)
       | None => Raise UnboundLocalError
       end
  else Ok None.

(** The whole function: the bare [except] turns every exception into
    [return None]. *)
Definition next_high_pass (fuel : nat) (sat : EarthSatellite)
    (min_elevation : Q) (limit : Z) (obs : Observer)
    : option (option Pass * Observer) :=
  match next_high_pass_loop fuel sat min_elevation (mkHp 0 limit None) obs with
  | None => None
  | Some (r, obs') =>
      match rbind r next_high_pass_return with
      | Ok v => Some (v, obs')
      | Raise _ => Some (None, obs')
      end
  end.

(** The elevation in degrees of a pass, as the loop computes it. *)
Definition elevation_of (p : Pass) : Q := (max_alt p * 360) / (2 * math_pi).

(** The search the loop is meant to do when nothing bounds it: call
    [next_pass] until it raises (then [None] is returned) or until a pass
    reaches [min_elevation] (then that pass is returned), moving the
    observer to the end of each pass seen.  There is no [limit] here; the
    fuel only bounds how far the search is followed. *)
Fixpoint search_passes (fuel : nat) (sat : EarthSatellite)
    (min_elevation : Q) (obs : Observer) : option (option Pass * Observer) :=
  match fuel with
  | O => None
  | S fuel' =>
      match next_pass_of obs sat with
      | Raise _ => Some (None, obs)
      | Ok p =>
          if Qle_bool min_elevation (elevation_of p)
          then Some (Some p, with_date obs (set_time p))
          else search_passes fuel' sat min_elevation
                 (with_date obs (set_time p))
      end
  end.

(** Within [n] calls of [next_pass] one raises or returns a pass that
    reaches [min_elevation]. *)
Fixpoint stops_within (n : nat) (sat : EarthSatellite)
    (min_elevation : Q) (obs : Observer) : Prop :=
  match n with
  | O => False
  | S n' =>
      match next_pass_of obs sat with
      | Raise _ => True
      | Ok p =>
          if Qle_bool min_elevation (elevation_of p)
          then True
          else stops_within n' sat min_elevation (with_date obs (set_time p))
      end
  end.

(** The loop of [compute_shift_times] cut after the seconds [0 .. n-1]:
    its state is the selected channel and the switches recorded so far. *)
Definition shift_times_loop (sat : EarthSatellite) (AOS : Q)
    (mems : list channel) (rx_freq tx_freq : Q) (n : Z)
    : M (Z * list switch) :=
  for_each (py_range n) (shift_times_body sat AOS mems rx_freq tx_freq)
    ((-1)%Z, []).

End Ephem.

(** ** The averaging step of [main] (lines 405-417) *)

(** [for mem, avg_mem in zip(mem_set, average_memory):
       avg_mem[0] += mem[0]; avg_mem[1] += mem[1]]:
    [zip] stops at the shorter list, the rows past it are left as they are. *)
Fixpoint accumulate (mem_set average_memory : list channel) : list channel :=
  match mem_set, average_memory with
  | mem :: mem_set', avg_mem :: average_memory' =>
      (fst avg_mem + fst mem, snd avg_mem + snd mem)
        :: accumulate mem_set' average_memory'
  | _, _ => average_memory
  end.

(** [for mem in average_memory: mem[0] /= total_tests; mem[1] /= total_tests] *)
Fixpoint divide_all (average_memory : list channel) (total_tests : Z)
    : result (list channel) :=
  match average_memory with
  | [] => Ok []
  | mem :: rest =>
      (m0 <- py_div (fst mem) (inject_Z total_tests) ;;
       m1 <- py_div (snd mem) (inject_Z total_tests) ;;
       rest' <- divide_all rest total_tests ;;
       Ok ((m0, m1) :: rest'))%result
  end.

Definition main_average_memory (channels total_tests : Z)
    (memory_sets : list (list channel)) : result (list channel) :=
  let average_memory := map (fun _ => (0, 0)) (py_range channels) in
  let average_memory :=
    fold_left (fun average_memory mem_set => accumulate mem_set average_memory)
      memory_sets average_memory in
  divide_all average_memory total_tests.

(** ** Specification vocabulary *)

(** The velocities at which both shifts of [compute_doppler] are defined. *)
Definition shifts_defined (v : Q) : Prop :=
  ~ C + v == 0 /\ ~ C + -1 * v == 0.

(** The linear interpolation between [a] (entry 0) and [b] (entry
    [channels - 1]), at entry [i]. *)
Definition interpolate (a b : Q) (channels i : Z) : Q :=
  a + inject_Z i * (b - a) / inject_Z (channels - 1).

(** The sum and the arithmetic mean, over the memory sets, of one
    coordinate ([fst]: receive, [snd]: transmit) of the entry at index [k]. *)
Definition column_sum (proj : channel -> Q) (k : nat)
    (memory_sets : list (list channel)) : Q :=
  fold_right (fun mem_set acc => proj (nth k mem_set (0, 0)) + acc) 0 memory_sets.

Definition column_mean (proj : channel -> Q) (k : nat)
    (memory_sets : list (list channel)) : Q :=
  column_sum proj k memory_sets / inject_Z (Z.of_nat (length memory_sets)).

(** The distance from [freq] to the receive frequency of channel [j]. *)
Definition channel_distance (freq : Q) (mems : list channel) (j : nat) : Q :=
  Qabs (fst (nth j mems (0, 0)) - freq).

(** Channel [b] is a nearest channel to [freq], and the first such. *)
Definition nearest_channel (freq : Q) (mems : list channel) (b : Z) : Prop :=
  (0 <= b < Z.of_nat (length mems))%Z
  /\ (forall j : nat, (j < length mems)%nat ->
      channel_distance freq mems (Z.to_nat b) <= channel_distance freq mems j)
  /\ (forall j : nat, (j < Z.to_nat b)%nat ->
      channel_distance freq mems (Z.to_nat b) < channel_distance freq mems j).

(** The date of second [i] of a pass that starts at [AOS]. *)
Definition second_of_pass (AOS : Q) (i : Z) : Q := AOS + (inject_Z i * SECOND).

(** A frequency in MHz moved by a shift in Hz. *)
Definition shifted (freq shift : Q) : Q := freq + (shift / 1000000).

(** The entry [compute_shift_times] appends at second [i] when it switches. *)
Definition switch_entry (AOS : Q) (mems : list channel) (rx_freq tx_freq : Q)
    (i : Z) (rx_shift tx_shift : Q) : switch :=
  mkSwitch (best_channel (shifted rx_freq rx_shift) mems)
    (second_of_pass AOS i) (shifted rx_freq rx_shift) (shifted tx_freq tx_shift).


(** Two observers at the same place (they may differ in their date). *)
Definition same_place (o obs : Observer) : Prop :=
  lat o = lat obs /\ lon o = lon obs /\ elev o = elev obs.


(** ** Sample inputs *)

Module Sample.

Definition sat : EarthSatellite := mkSat 25544.

Definition obs : Observer := mkObserver (213 # 10) (-1578 # 10) 5 0.

Definition rx_freq : Q := 1458 # 10.
Definition tx_freq : Q := 4359 # 10.

(** A satellite that closes at 6000 m/s until date 0 and recedes at
    6000 m/s after it (ephem's range velocity is positive when the range
    grows). *)
Definition range_velocity (o : Observer) (s : EarthSatellite) : Q :=
  if Qle_bool (date o) 0 then -6000 else 6000.

(** Two channels stored in ascending order of receive frequency, and a
    pass of three seconds from date 0. *)
Definition ascending_mems : list channel :=
  [(145797 # 1000, 435909 # 1000); (145803 # 1000, 435891 # 1000)].

Definition LOS3 : Q := 3 # 86400.

(** Two memory sets of two channels each. *)
Definition memory_sets : list (list channel) :=
  [[(145803 # 1000, 435891 # 1000); (145797 # 1000, 435909 # 1000)];
   [(145802 # 1000, 435893 # 1000); (145798 # 1000, 435907 # 1000)]].

(** Passes of half a day each: up to date 1 they culminate at 0.1 rad
    (5.7 degrees), after it at 0.5 rad (28.6 degrees). *)
Definition next_pass_of (o : Observer) (s : EarthSatellite) : result Pass :=
  Ok (mkPass (date o + (1 # 4)) 1 (date o + (3 # 8))
        (if Qle_bool 1 (date o) then 5 # 10 else 1 # 10)
        (date o + (1 # 2)) 5).

(** The shift of frequency [f0] (MHz) at velocity [v]. *)
Definition shift_at (f0 v : Q) : Q :=
  f0 * 1000000 - (C / (C + v)) * (f0 * 1000000).

End Sample.

(** ** The passes ahead of an observer *)

Section PassesAhead.

Variable next_pass_of : Observer -> EarthSatellite -> result Pass.

(** The first [n] passes [next_pass] yields when the observer is moved to
    the end of each pass in turn; the list stops where [next_pass] raises. *)
Fixpoint passes_ahead (n : nat) (sat : EarthSatellite) (obs : Observer)
    : list Pass :=
  match n with
  | O => []
  | S n' =>
      match next_pass_of obs sat with
      | Raise _ => []
      | Ok p => p :: passes_ahead n' sat (with_date obs (set_time p))
      end
  end.

End PassesAhead.

(** ** Collecting the memory sets in [main] (lines 386-403) *)

(** [min_elevation = 10.0]; [next_high_pass] is called with its default
    [limit=25]. *)
Definition main_min_elevation : Q := 10.
Definition default_limit : Z := 25.

(** How the collection ends when no exception escapes: the averaging step
    is reached with the sets collected and the last pass found, or the
    transmitter loop is left by [break]. *)
Inductive collected : Type :=
| Proceed (memory_sets : list (list channel)) (next_pass : Pass)
| BreakOut.

Section MainCollect.

Variable range_velocity : Observer -> EarthSatellite -> Q.
Variable next_pass_of : Observer -> EarthSatellite -> result Pass.

(** The [for n in range(total_tests)] loop.  The local [next_pass] of
    [main] is [None] while it is unbound, [Some None] when it holds
    Python's [None], [Some (Some p)] when it holds a pass.  Each call of
    [next_high_pass] gets the fuel; [None] means one of them ran out of
    it. *)
Fixpoint main_collect_loop (fuel : nat) (ns : list Z) (sat : EarthSatellite)
    (channels : Z) (downlink uplink : Q)
    (memory_sets : list (list channel)) (next_pass : option (option Pass))
    (my_loc : Observer)
    : option (result (list (list channel) * option (option Pass)) * Observer) :=
  match ns with
  | [] => Some (Ok (memory_sets, next_pass), my_loc)
  | n :: ns' =>
      match next_high_pass next_pass_of fuel sat main_min_elevation
              default_limit my_loc with
      | None => None
      | Some (next_pass, my_loc) =>
          match next_pass with
          | Some p =>
              match compute_doppler_freqs range_velocity sat
                      (rise_time p) (set_time p) channels downlink uplink
                      my_loc with
              | (Ok mems, my_loc) =>
                  main_collect_loop fuel ns' sat channels downlink uplink
                    (memory_sets ++ [mems]) (Some next_pass) my_loc
              | (Raise e, my_loc) => Some (Raise e, my_loc)
              end
          | None => Some (Ok (memory_sets, Some None), my_loc)
          end
      end
  end.

(** [memory_sets = []], the loop, and [if (next_pass == None): break];
    reading [next_pass] while it is unbound raises [UnboundLocalError]. *)
Definition main_collect (fuel : nat) (total_tests : Z) (sat : EarthSatellite)
    (channels : Z) (downlink uplink : Q) (next_pass : option (option Pass))
    (my_loc : Observer) : option (result collected * Observer) :=
  match main_collect_loop fuel (py_range total_tests) sat channels
          downlink uplink [] next_pass my_loc with
  | None => None
  | Some (Raise e, my_loc) => Some (Raise e, my_loc)
  | Some (Ok (memory_sets, next_pass), my_loc) =>
      match next_pass with
      | None => Some (Raise UnboundLocalError, my_loc)
      | Some None => Some (Ok BreakOut, my_loc)
      | Some (Some p) => Some (Ok (Proceed memory_sets p), my_loc)
      end
  end.

End MainCollect.

(** ** [search_for_TLE] *)

(** [sub in s] on strings: [sub] occurs somewhere in [s]. *)
Fixpoint str_in (sub s : String.string) : bool :=
  if String.prefix sub s then true
  else match s with
       | String.EmptyString => false
       | String.String _ s' => str_in sub s'
       end.

(** [s.split(sep)] for a one-character separator: the fields between the
    separators, empty fields included; always at least one field. *)
Fixpoint py_split (sep : Ascii.ascii) (s : String.string)
    : list String.string :=
  match s with
  | String.EmptyString => [String.EmptyString]
  | String.String c s' =>
      if Ascii.eqb c sep then String.EmptyString :: py_split sep s'
      else match py_split sep s' with
           | [] => [String.String c String.EmptyString]
           | field :: fields => String.String c field :: fields
           end
  end.

(** What [search_for_TLE] does: it returns three lines, returns
    [None, None, None], or raises [IndexError]. *)
Inductive tle_outcome : Type :=
| FoundTLE (name line1 line2 : String.string)
| NoTLE
| RaiseIndexError.

(** [range(0, n, 3)] *)
Definition py_range3 (n : nat) : list nat :=
  map (fun k => (3 * k)%nat) (seq 0 ((n + 2) / 3)).

(** The [for l in range(0, len(lines), 3)] loop: the three lines are read
    first ([IndexError] past the end of the list), then the field is
    looked at; [line2.split(' ')[1]] raises [IndexError] when the line has
    no space. *)
Fixpoint search_groups (search_text search_field : String.string)
    (lines : list String.string) (ls : list nat) : tle_outcome :=
  match ls with
  | [] => NoTLE
  | l :: ls' =>
      match nth_error lines l with
      | None => RaiseIndexError
      | Some name =>
          match nth_error lines (l + 1) with
          | None => RaiseIndexError
          | Some line1 =>
              match nth_error lines (l + 2) with
              | None => RaiseIndexError
              | Some line2 =>
                  if String.eqb search_field "name"%string then
                    if str_in search_text name
                    then FoundTLE name line1 line2
                    else search_groups search_text search_field lines ls'
                  else if String.eqb search_field "catalog"%string then
                    match nth_error (py_split " "%char line2) 1 with
                    | None => RaiseIndexError
                    | Some number =>
                        if String.eqb search_text number
                        then FoundTLE name line1 line2
                        else search_groups search_text search_field lines ls'
                    end
                  else search_groups search_text search_field lines ls'
              end
          end
      end
  end.

(** [search_for_TLE], from the list [lines = TLEs.splitlines()] on. *)
Definition search_for_TLE (search_text search_field : String.string)
    (lines : list String.string) : tle_outcome :=
  search_groups search_text search_field lines (py_range3 (length lines)).

(** The test the loop applies to a group of three lines. *)
Definition group_matches (search_text search_field name line2 : String.string)
    : bool :=
  if String.eqb search_field "name"%string then str_in search_text name
  else if String.eqb search_field "catalog"%string then
    match nth_error (py_split " "%char line2) 1 with
    | Some number => String.eqb search_text number
    | None => false
    end
  else false.

(** The group of index [j]: the lines [3j], [3j+1], [3j+2]. *)
Definition tle_group (lines : list String.string) (j : nat)
    : option (String.string * String.string * String.string) :=
  match nth_error lines (3 * j), nth_error lines (3 * j + 1),
        nth_error lines (3 * j + 2) with
  | Some name, Some line1, Some line2 => Some (name, line1, line2)
  | _, _, _ => None
  end.

(** ** More sample inputs *)

Module Demo.

(** Two channels stored in the order a pass meets them: the receive
    frequency falls during a pass. *)
Definition descending_mems : list channel :=
  [(145803 # 1000, 435891 # 1000); (145797 # 1000, 435909 # 1000)].

(** Two element sets, with the name line in front. *)
Definition tle_lines : list String.string :=
  ["ISS (ZARYA)";
   "1 25544U 98067A   20344.91667824  .00001264  00000-0  30797-4 0  9997";
   "2 25544  51.6441 202.3237 0001796  84.9642  41.4004 15.49180255259241";
   "AO-07";
   "1 07530U 74089B   20344.45838889 -.00000028  00000-0  12570-3 0  9992";
   "2 07530 101.8031 312.0179 0012376  33.3092  36.6412 12.53644626109535"
  ]%string.

End Demo.

(** * Properties *)

(** ** Division *)

Lemma py_div_ok (a b : Q) : ~ b == 0 -> py_div a b = Ok (a / b).
Proof.
  intros Hb. unfold py_div.
  destruct (Qeq_bool b 0) eqn:E; [|reflexivity].
  apply Qeq_bool_eq in E. contradiction.
Qed.

Lemma py_div_zero (a b : Q) : b == 0 -> py_div a b = Raise ZeroDivisionError.
Proof.
  intros Hb. unfold py_div.
  apply Qeq_bool_iff in Hb. now rewrite Hb.
Qed.

Lemma mega_nonzero (f : Q) : ~ f == 0 -> ~ f * 1000000 == 0.
Proof. intros Hf H. apply Hf. lra. Qed.

(** ** Doppler arithmetic *)

Lemma doppler_shift_ok (f0 v : Q) :
  ~ C + v == 0 ->
  doppler_shift f0 v = Ok (f0 * 1000000 - (C / (C + v)) * (f0 * 1000000)).
Proof.
  intros Hv. unfold doppler_shift.
  rewrite (py_div_ok _ _ Hv). reflexivity.
Qed.

Lemma doppler_shift_raises (f0 v : Q) :
  C + v == 0 -> doppler_shift f0 v = Raise ZeroDivisionError.
Proof.
  intros Hv. unfold doppler_shift.
  rewrite (py_div_zero _ _ Hv). reflexivity.
Qed.

(** The sign convention: with a positive emitted frequency and a velocity
    above [-C], the shift has the sign of the velocity. *)
Lemma doppler_shift_sign (f0 v s : Q) :
  0 < f0 -> 0 < C + v -> doppler_shift f0 v = Ok s ->
  (0 < v -> 0 < s) /\ (v < 0 -> s < 0) /\ (v == 0 -> s == 0).
Proof.
  intros Hf Hc Hs.
  rewrite doppler_shift_ok in Hs by lra. injection Hs as <-.
  assert (E : f0 * 1000000 - C / (C + v) * (f0 * 1000000)
              == (f0 * 1000000) * v * / (C + v)).
  { field. lra. }
  assert (Hi : 0 < / (C + v)) by now apply Qinv_lt_0_compat.
  rewrite E. repeat split; intros Hv.
  - apply Qmult_lt_0_compat; [|assumption].
    apply Qmult_lt_0_compat; lra.
  - assert (0 < (f0 * 1000000) * (- v) * / (C + v)).
    { apply Qmult_lt_0_compat; [|assumption].
      apply Qmult_lt_0_compat; lra. }
    lra.
  - rewrite Hv. lra.
Qed.

(** C1: for [C + v <> 0], [doppler_shift f0 v] returns
    [f0*10^6 - (C/(C+v))*(f0*10^6)], which is the emitted frequency in Hz
    minus the received frequency [f = f0*10^6 * C/(C+v)]. *)
Theorem doppler_shift_formula (f0 v : Q) :
  ~ C + v == 0 ->
  doppler_shift f0 v = Ok (f0 * 1000000 - (C / (C + v)) * (f0 * 1000000))
  /\ exists f : Q,
       f == (f0 * 1000000) * C / (C + v)
       /\ doppler_shift f0 v = Ok (f0 * 1000000 - f).
Proof.
  intros Hv. split.
  - now apply doppler_shift_ok.
  - exists (C / (C + v) * (f0 * 1000000)). split.
    + field. exact Hv.
    + now apply doppler_shift_ok.
Qed.

Lemma doppler_shift_formula_witness :
  ~ C + 7000 == 0
  /\ doppler_shift (1458 # 10) 7000
     = Ok ((1458 # 10) * 1000000 - (C / (C + 7000)) * ((1458 # 10) * 1000000)).
Proof.
  assert (H : ~ C + 7000 == 0) by (vm_compute; discriminate).
  split; [exact H|].
  exact (proj1 (doppler_shift_formula (1458 # 10) 7000 H)).
Defined.

Lemma doppler_convert_ok (f_orig f_shift f_new : Q) :
  ~ f_orig == 0 ->
  doppler_convert f_orig f_shift f_new
  = Ok (((f_orig * 1000000 + f_shift) / (f_orig * 1000000)) * (f_new * 1000000)
        - f_new * 1000000).
Proof.
  intros Hf. unfold doppler_convert.
  rewrite (py_div_ok _ _ (mega_nonzero _ Hf)). reflexivity.
Qed.

(** C2: for [f_orig <> 0], [doppler_convert f_orig f_shift f_new] returns
    [((f_orig*10^6 + f_shift)/(f_orig*10^6))*(f_new*10^6) - f_new*10^6],
    which equals [f_shift * (f_new / f_orig)]. *)
Theorem doppler_convert_formula (f_orig f_shift f_new : Q) :
  ~ f_orig == 0 ->
  doppler_convert f_orig f_shift f_new
  = Ok (((f_orig * 1000000 + f_shift) / (f_orig * 1000000)) * (f_new * 1000000)
        - f_new * 1000000)
  /\ ((f_orig * 1000000 + f_shift) / (f_orig * 1000000)) * (f_new * 1000000)
     - f_new * 1000000
     == f_shift * (f_new / f_orig).
Proof.
  intros Hf. split.
  - now apply doppler_convert_ok.
  - field. exact Hf.
Qed.

Lemma doppler_convert_formula_witness :
  ~ (1458 # 10) == 0
  /\ doppler_convert (1458 # 10) 3400 (4359 # 10)
     = Ok ((((1458 # 10) * 1000000 + 3400) / ((1458 # 10) * 1000000))
           * ((4359 # 10) * 1000000) - (4359 # 10) * 1000000).
Proof.
  assert (H : ~ (1458 # 10) == 0) by (vm_compute; discriminate).
  split; [exact H|].
  exact (proj1 (doppler_convert_formula (1458 # 10) 3400 (4359 # 10) H)).
Defined.

(** C3: when one velocity applies to both frequencies, converting the
    shift of [f_orig] to [f_new] gives the shift computed at [f_new]. *)
Theorem doppler_convert_agrees_with_shift (f_orig f_new v : Q) :
  ~ f_orig == 0 -> ~ C + v == 0 ->
  exists s c s' : Q,
    doppler_shift f_orig v = Ok s
    /\ doppler_convert f_orig s f_new = Ok c
    /\ doppler_shift f_new v = Ok s'
    /\ c == s'.
Proof.
  intros Hf Hv.
  eexists. eexists. eexists.
  split; [now apply doppler_shift_ok|].
  split; [now apply doppler_convert_ok|].
  split; [now apply doppler_shift_ok|].
  field. split; assumption.
Qed.

Lemma doppler_convert_agrees_with_shift_witness :
  ~ (1458 # 10) == 0 /\ ~ C + 7000 == 0
  /\ exists s c s' : Q,
       doppler_shift (1458 # 10) 7000 = Ok s
       /\ doppler_convert (1458 # 10) s (4359 # 10) = Ok c
       /\ doppler_shift (4359 # 10) 7000 = Ok s'
       /\ c == s'.
Proof.
  assert (H1 : ~ (1458 # 10) == 0) by (vm_compute; discriminate).
  assert (H2 : ~ C + 7000 == 0) by (vm_compute; discriminate).
  split; [exact H1|]. split; [exact H2|].
  exact (doppler_convert_agrees_with_shift (1458 # 10) (4359 # 10) 7000 H1 H2).
Defined.

(** ** Loops that append *)

Lemma fold_left_append {A B : Type} (g : B -> A) (l : list B) (acc : list A) :
  fold_left (fun acc x => acc ++ [g x]) l acc = acc ++ map g l.
Proof.
  revert acc. induction l as [|x l IH]; intros acc; simpl.
  - now rewrite app_nil_r.
  - rewrite IH, <- app_assoc. reflexivity.
Qed.

Lemma py_range_length (n : Z) : length (py_range n) = Z.to_nat n.
Proof. unfold py_range. now rewrite length_map, length_seq. Qed.

Lemma py_range_nth_error (n : Z) (k : nat) :
  (k < Z.to_nat n)%nat -> nth_error (py_range n) k = Some (Z.of_nat k).
Proof.
  intros Hk. unfold py_range.
  rewrite nth_error_map, nth_error_seq.
  destruct (Nat.ltb_spec k (Z.to_nat n)); [reflexivity|lia].
Qed.

Lemma py_range_nonpos (n : Z) : (n <= 0)%Z -> py_range n = [].
Proof.
  intros Hn. unfold py_range.
  replace (Z.to_nat n) with 0%nat by lia. reflexivity.
Qed.

Lemma py_range_succ (n : Z) :
  (0 <= n)%Z -> py_range (n + 1) = py_range n ++ [n].
Proof.
  intros Hn. unfold py_range.
  replace (Z.to_nat (n + 1)) with (Z.to_nat n + 1)%nat by lia.
  rewrite seq_app, map_app. simpl.
  now rewrite Z2Nat.id.
Qed.

Lemma inject_Z_nonzero (z : Z) : z <> 0%Z -> ~ inject_Z z == 0.
Proof.
  intros Hz H. apply Hz.
  now apply (proj1 (inject_Z_injective z 0)).
Qed.


(** ** The number of seconds of a pass *)

Lemma py_int_inject_Z (z : Z) : py_int (inject_Z z) = z.
Proof. unfold py_int. simpl. apply Z.quot_1_r. Qed.

(** The three constants are 53-bit numbers within half a unit in the last
    place of the quotients that define them. *)
Lemma constants_rounded :
  (HOUR = 6004799503160661 # 2 ^ 57
   /\ Qabs (HOUR - 1 / 24) < 1 # 2 ^ 58)
  /\ (MINUTE = 6405119470038038 # 2 ^ 63
      /\ Qabs (MINUTE - HOUR / 60) < 1 # 2 ^ 64)
  /\ (SECOND = 6832127434707241 # 2 ^ 69
      /\ Qabs (SECOND - MINUTE / 60) < 1 # 2 ^ 70)
  /\ (2 ^ 52 <= 6004799503160661 < 2 ^ 53)%Z
  /\ (2 ^ 52 <= 6405119470038038 < 2 ^ 53)%Z
  /\ (2 ^ 52 <= 6832127434707241 < 2 ^ 53)%Z.
Proof. repeat split; vm_compute; congruence. Qed.

Lemma SECOND_pos : 0 < SECOND.
Proof. reflexivity. Qed.

Lemma SECOND_below_day_fraction : SECOND < 1 # 86400.
Proof. reflexivity. Qed.

Lemma div_SECOND (x : Q) :
  x / SECOND == x * (590295810358705651712 # 6832127434707241).
Proof. unfold Qdiv. apply Qmult_comp; reflexivity. Qed.

Lemma pass_intervals_floor (AOS LOS : Q) :
  pass_intervals AOS LOS = Qfloor ((LOS - AOS) / SECOND).
Proof. unfold pass_intervals. now rewrite py_int_inject_Z. Qed.

(** A pass shorter than [SECOND] has no second to sample; a pass of at
    least [SECOND] has one. *)
Lemma pass_intervals_short (AOS LOS : Q) :
  LOS - AOS < SECOND -> (pass_intervals AOS LOS < 1)%Z.
Proof.
  intros H. rewrite pass_intervals_floor.
  assert (Hf := Qfloor_le ((LOS - AOS) / SECOND)).
  assert (Hd := div_SECOND (LOS - AOS)).
  set (y := (LOS - AOS) / SECOND) in *. unfold SECOND in H.
  rewrite Zlt_Qlt. change (inject_Z 1) with 1. lra.
Qed.


(** Every whole [1/86400] of a day inside the pass is a second the loops
    sample. *)
Lemma whole_seconds_sampled (AOS LOS : Q) (i : Z) :
  (0 <= i < Qfloor ((LOS - AOS) * 86400))%Z ->
  (0 <= i < pass_intervals AOS LOS)%Z.
Proof.
  intros [H0 Hi]. split; [exact H0|].
  apply Z.lt_le_trans with (Qfloor ((LOS - AOS) * 86400)); [exact Hi|].
  rewrite pass_intervals_floor. apply Qfloor_resp_le.
  assert (Hf := Qfloor_le ((LOS - AOS) * 86400)).
  assert (H1 : (1 <= Qfloor ((LOS - AOS) * 86400))%Z) by lia.
  rewrite Zle_Qle in H1. change (inject_Z 1) with 1 in H1.
  assert (Hd := div_SECOND (LOS - AOS)).
  set (y := (LOS - AOS) / SECOND) in *. lra.
Qed.

(** ** [best_channel] *)

Lemma best_channel_prefix (freq : Q) (mems : list channel) (n : nat) :
  let st := fold_left (best_channel_step freq mems)
              (py_range (Z.of_nat n)) ((-1)%Z, 0) in
  (n = 0%nat /\ st = ((-1)%Z, 0))
  \/ ((0 <= fst st < Z.of_nat n)%Z
      /\ snd st = channel_distance freq mems (Z.to_nat (fst st))
      /\ (forall j : nat, (j < n)%nat ->
          snd st <= channel_distance freq mems j)
      /\ (forall j : nat, (j < Z.to_nat (fst st))%nat ->
          snd st < channel_distance freq mems j)).
Proof.
  induction n as [|n IH]; cbv zeta; [left; split; reflexivity|].
  right.
  replace (Z.of_nat (S n)) with (Z.of_nat n + 1)%Z by lia.
  rewrite py_range_succ, fold_left_app by lia.
  cbv zeta in IH.
  destruct (fold_left (best_channel_step freq mems)
              (py_range (Z.of_nat n)) ((-1)%Z, 0)) as [best best_diff].
  cbn [fold_left fst snd] in *.
  unfold best_channel_step. rewrite Nat2Z.id.
  fold (channel_distance freq mems n).
  destruct IH as [[-> [= -> ->]]|(Hb & Hd & Hmin & Hfirst)].
  - rewrite orb_true_r. cbn [fst snd]. rewrite Nat2Z.id.
    repeat split; try lia.
    intros j Hj. replace j with 0%nat by lia. apply Qle_refl.
  - replace (best =? -1)%Z with false by (symmetry; apply Z.eqb_neq; lia).
    rewrite orb_false_r.
    destruct (Qlt_le_dec (channel_distance freq mems n) best_diff)
      as [Hlt|Hge]; cbn [fst snd].
    + rewrite Nat2Z.id. repeat split; try lia.
      * intros j Hj. destruct (Nat.eq_dec j n) as [->|Hne];
          [apply Qle_refl|].
        apply Qlt_le_weak, Qlt_le_trans with best_diff; [exact Hlt|].
        apply Hmin. lia.
      * intros j Hj. apply Qlt_le_trans with best_diff; [exact Hlt|].
        apply Hmin. exact Hj.
    + repeat split; try lia; try assumption.
      intros j Hj. destruct (Nat.eq_dec j n) as [->|Hne];
        [exact Hge|].
      apply Hmin. lia.
Qed.

Lemma best_channel_nearest (freq : Q) (mems : list channel) :
  mems <> [] -> nearest_channel freq mems (best_channel freq mems).
Proof.
  intros Hne. unfold nearest_channel, best_channel.
  destruct (best_channel_prefix freq mems (length mems))
    as [[Hl _]|(Hb & Hd & Hmin & Hfirst)].
  - destruct mems; [contradiction|discriminate].
  - split; [exact Hb|]. split.
    + intros j Hj. rewrite <- Hd. now apply Hmin.
    + intros j Hj. rewrite <- Hd. now apply Hfirst.
Qed.

(** ** Loops over the observer *)

Lemma for_each_app {S : Type} (l1 l2 : list Z) (body : Z -> S -> M S)
    (s : S) (obs : Observer) :
  for_each (l1 ++ l2) body s obs
  = match for_each l1 body s obs with
    | (Ok s', obs') => for_each l2 body s' obs'
    | (Raise e, obs') => (Raise e, obs')
    end.
Proof.
  revert s obs. induction l1 as [|i l1 IH]; intros s obs; simpl.
  - reflexivity.
  - unfold bind. destruct (body i s obs) as [[s'|e] obs']; [apply IH|reflexivity].
Qed.

Lemma for_each_one {S : Type} (i : Z) (body : Z -> S -> M S)
    (s : S) (obs : Observer) :
  for_each [i] body s obs = body i s obs.
Proof.
  simpl. unfold bind, ret.
  destruct (body i s obs) as [[s'|e] obs']; reflexivity.
Qed.

Lemma py_range_to_nat (n : Z) : py_range n = py_range (Z.of_nat (Z.to_nat n)).
Proof. unfold py_range. now rewrite Nat2Z.id. Qed.

(** ** Seconds of a pass *)



Lemma StronglySorted_snoc (js : list Z) (n : Z) :
  StronglySorted Z.lt js -> Forall (fun j => (j < n)%Z) js ->
  StronglySorted Z.lt (js ++ [n]).
Proof.
  induction 1 as [|j js Hs IH Hj]; intros Hn; simpl.
  - repeat constructor.
  - inversion Hn as [|? ? Hjn Hrest]; subst.
    constructor; [now apply IH|].
    apply Forall_app. split; [exact Hj|]. now constructor.
Qed.


Section EphemProperties.

Variable range_velocity : Observer -> EarthSatellite -> Q.

(** ** [compute_doppler] *)

Lemma compute_doppler_run (sat : EarthSatellite) (rx_freq tx_freq : Q)
    (obs : Observer) :
  compute_doppler range_velocity sat rx_freq tx_freq obs
  = ((tx_shift <- doppler_shift tx_freq (range_velocity obs sat) ;;
      rx_shift <- doppler_shift rx_freq (-1 * range_velocity obs sat) ;;
      Ok [rx_shift; tx_shift])%result, obs).
Proof.
  unfold compute_doppler, bind, lift, ret.
  destruct (doppler_shift tx_freq _); simpl; [|reflexivity].
  destruct (doppler_shift rx_freq _); reflexivity.
Qed.

Lemma compute_doppler_ok (sat : EarthSatellite) (rx_freq tx_freq : Q)
    (obs : Observer) :
  shifts_defined (range_velocity obs sat) ->
  exists rx_shift tx_shift : Q,
    doppler_shift rx_freq (-1 * range_velocity obs sat) = Ok rx_shift
    /\ doppler_shift tx_freq (range_velocity obs sat) = Ok tx_shift
    /\ compute_doppler range_velocity sat rx_freq tx_freq obs
       = (Ok [rx_shift; tx_shift], obs).
Proof.
  intros [Ht Hr]. rewrite compute_doppler_run.
  rewrite (doppler_shift_ok tx_freq _ Ht), (doppler_shift_ok rx_freq _ Hr).
  eexists. eexists. repeat split.
Qed.

(** [compute_doppler] yields a two-element tuple or [ZeroDivisionError],
    and leaves the observer as it was. *)
Lemma compute_doppler_cases (sat : EarthSatellite) (rx_freq tx_freq : Q)
    (obs : Observer) :
  (exists rx_shift tx_shift : Q,
      compute_doppler range_velocity sat rx_freq tx_freq obs
      = (Ok [rx_shift; tx_shift], obs))
  \/ (~ shifts_defined (range_velocity obs sat)
      /\ compute_doppler range_velocity sat rx_freq tx_freq obs
         = (Raise ZeroDivisionError, obs)).
Proof.
  rewrite compute_doppler_run. unfold doppler_shift, py_div, shifts_defined.
  destruct (Qeq_bool (C + range_velocity obs sat) 0) eqn:Et; simpl.
  - right. apply Qeq_bool_eq in Et. split; [tauto|reflexivity].
  - destruct (Qeq_bool (C + -1 * range_velocity obs sat) 0) eqn:Er; simpl.
    + right. apply Qeq_bool_eq in Er. split; [tauto|reflexivity].
    + left. eexists. eexists. reflexivity.
Qed.

(** ** [compute_doppler_freqs] *)

Lemma compute_doppler_freqs_run (sat : EarthSatellite) (AOS LOS : Q)
    (channels : Z) (rx_freq tx_freq : Q) (obs : Observer)
    (start_rx start_tx end_rx end_tx : Q) :
  compute_doppler range_velocity sat rx_freq tx_freq (with_date obs AOS)
  = (Ok [start_rx; start_tx], with_date obs AOS) ->
  compute_doppler range_velocity sat rx_freq tx_freq (with_date obs LOS)
  = (Ok [end_rx; end_tx], with_date obs LOS) ->
  channels <> 1%Z ->
  compute_doppler_freqs range_velocity sat AOS LOS channels rx_freq tx_freq obs
  = (Ok (map (fun interval =>
                (rx_freq
                 + (start_rx
                    + (end_rx - start_rx) / inject_Z (channels - 1)
                      * inject_Z interval) / 1000000,
                 tx_freq
                 + (start_tx
                    + (end_tx - start_tx) / inject_Z (channels - 1)
                      * inject_Z interval) / 1000000))
           (py_range channels)),
     with_date obs LOS).
Proof.
  intros Hs He Hc.
  assert (Hz : ~ inject_Z (channels - 1) == 0) by (apply inject_Z_nonzero; lia).
  unfold compute_doppler_freqs, bind, set_date.
  rewrite Hs. cbn [lift unpack2].
  change (with_date (with_date obs AOS) LOS) with (with_date obs LOS).
  rewrite He. cbn [lift unpack2].
  rewrite !(py_div_ok _ _ Hz). unfold ret.
  rewrite (fold_left_append
             (fun interval =>
                (rx_freq
                 + (start_rx
                    + (end_rx - start_rx) / inject_Z (channels - 1)
                      * inject_Z interval) / 1000000,
                 tx_freq
                 + (start_tx
                    + (end_tx - start_tx) / inject_Z (channels - 1)
                      * inject_Z interval) / 1000000))).
  reflexivity.
Qed.

(** C4: for [channels >= 2], with [(start_rx, start_tx)] and
    [(end_rx, end_tx)] the shifts [compute_doppler] samples at AOS and at
    LOS, [compute_doppler_freqs] returns exactly [channels] entries, entry
    [i] being the two frequencies plus the linearly interpolated shifts
    (in MHz); entry 0 is the sample at AOS and the last entry the sample
    at LOS. *)
Theorem compute_doppler_freqs_interpolates (sat : EarthSatellite)
    (AOS LOS : Q) (channels : Z) (rx_freq tx_freq : Q) (obs : Observer)
    (start_rx start_tx end_rx end_tx : Q) :
  (2 <= channels)%Z ->
  fst (compute_doppler range_velocity sat rx_freq tx_freq (with_date obs AOS))
  = Ok [start_rx; start_tx] ->
  fst (compute_doppler range_velocity sat rx_freq tx_freq (with_date obs LOS))
  = Ok [end_rx; end_tx] ->
  exists mems : list channel,
    fst (compute_doppler_freqs range_velocity sat AOS LOS channels
           rx_freq tx_freq obs) = Ok mems
    /\ Z.of_nat (length mems) = channels
    /\ (forall i : Z, (0 <= i < channels)%Z ->
        exists r t : Q,
          nth_error mems (Z.to_nat i) = Some (r, t)
          /\ r == rx_freq + interpolate start_rx end_rx channels i / 1000000
          /\ t == tx_freq + interpolate start_tx end_tx channels i / 1000000)
    /\ (exists r t : Q,
          nth_error mems 0 = Some (r, t)
          /\ r == rx_freq + start_rx / 1000000
          /\ t == tx_freq + start_tx / 1000000)
    /\ (exists r t : Q,
          nth_error mems (Z.to_nat (channels - 1)) = Some (r, t)
          /\ r == rx_freq + end_rx / 1000000
          /\ t == tx_freq + end_tx / 1000000).
Proof.
  intros Hc Hs He.
  assert (Hz : ~ inject_Z (channels - 1) == 0) by (apply inject_Z_nonzero; lia).
  assert (Hs' : compute_doppler range_velocity sat rx_freq tx_freq
                  (with_date obs AOS) = (Ok [start_rx; start_tx], with_date obs AOS)).
  { destruct (compute_doppler_cases sat rx_freq tx_freq (with_date obs AOS))
      as [(a & b & E)|[_ E]]; rewrite E in Hs; simpl in Hs;
      [injection Hs as -> ->; exact E|discriminate]. }
  assert (He' : compute_doppler range_velocity sat rx_freq tx_freq
                  (with_date obs LOS) = (Ok [end_rx; end_tx], with_date obs LOS)).
  { destruct (compute_doppler_cases sat rx_freq tx_freq (with_date obs LOS))
      as [(a & b & E)|[_ E]]; rewrite E in He; simpl in He;
      [injection He as -> ->; exact E|discriminate]. }
  rewrite (compute_doppler_freqs_run sat AOS LOS channels rx_freq tx_freq obs
             _ _ _ _ Hs' He') by lia.
  eexists. split; [reflexivity|].
  assert (Hentry : forall i : Z, (0 <= i < channels)%Z ->
            exists r t : Q,
              nth_error
                (map (fun interval =>
                        (rx_freq
                         + (start_rx
                            + (end_rx - start_rx) / inject_Z (channels - 1)
                              * inject_Z interval) / 1000000,
                         tx_freq
                         + (start_tx
                            + (end_tx - start_tx) / inject_Z (channels - 1)
                              * inject_Z interval) / 1000000))
                   (py_range channels)) (Z.to_nat i) = Some (r, t)
              /\ r == rx_freq + interpolate start_rx end_rx channels i / 1000000
              /\ t == tx_freq + interpolate start_tx end_tx channels i / 1000000).
  { intros i Hi.
    rewrite nth_error_map, py_range_nth_error by lia.
    rewrite Z2Nat.id by lia. cbn [option_map].
    eexists. eexists. split; [reflexivity|].
    unfold interpolate. split; field; exact Hz. }
  split; [rewrite length_map, py_range_length; lia|].
  split; [exact Hentry|].
  split.
  - destruct (Hentry 0%Z) as (r & t & E & Hr & Ht); [lia|].
    exists r, t. split; [exact E|].
    unfold interpolate in Hr, Ht.
    split; [rewrite Hr|rewrite Ht]; field; exact Hz.
  - destruct (Hentry (channels - 1)%Z) as (r & t & E & Hr & Ht); [lia|].
    exists r, t. split; [exact E|].
    unfold interpolate in Hr, Ht.
    split; [rewrite Hr|rewrite Ht]; field; exact Hz.
Qed.

(** C10: with [channels = 1] the divisor [channels - 1] of the two
    interval divisions is zero and [compute_doppler_freqs] raises
    [ZeroDivisionError] instead of returning a list; with [channels >= 2]
    both divisions are defined. *)
Theorem compute_doppler_freqs_one_channel (sat : EarthSatellite)
    (AOS LOS : Q) (rx_freq tx_freq : Q) (obs : Observer) :
  (forall x : Q, py_div x (inject_Z (1 - 1)) = Raise ZeroDivisionError)
  /\ fst (compute_doppler_freqs range_velocity sat AOS LOS 1 rx_freq tx_freq obs)
     = Raise ZeroDivisionError
  /\ (forall (channels : Z) (x : Q), (2 <= channels)%Z ->
      py_div x (inject_Z (channels - 1)) = Ok (x / inject_Z (channels - 1))).
Proof.
  split; [intros x; reflexivity|]. split.
  - unfold compute_doppler_freqs, bind, set_date.
    destruct (compute_doppler_cases sat rx_freq tx_freq (with_date obs AOS))
      as [(a & b & E)|[_ E]]; rewrite E; [|reflexivity].
    cbn [lift unpack2].
    change (with_date (with_date obs AOS) LOS) with (with_date obs LOS).
    destruct (compute_doppler_cases sat rx_freq tx_freq (with_date obs LOS))
      as [(a' & b' & E')|[_ E']]; rewrite E'; reflexivity.
  - intros channels x Hc. apply py_div_ok, inject_Z_nonzero. lia.
Qed.

(** ** [compute_shift_graph] *)



(** ** [compute_shift_times] *)

Lemma with_date_same_place (o obs : Observer) (d : Q) :
  same_place o obs -> with_date o d = with_date obs d.
Proof. intros (H1 & H2 & H3). unfold with_date. now rewrite H1, H2, H3. Qed.

Lemma shift_times_body_run (sat : EarthSatellite) (AOS : Q)
    (mems : list channel) (rx_freq tx_freq : Q) (i curr : Z)
    (sw : list switch) (o : Observer) (rx_shift tx_shift : Q) :
  compute_doppler range_velocity sat rx_freq tx_freq
    (with_date o (second_of_pass AOS i))
  = (Ok [rx_shift; tx_shift], with_date o (second_of_pass AOS i)) ->
  shift_times_body range_velocity sat AOS mems rx_freq tx_freq i (curr, sw) o
  = (Ok (if (curr <? Z.of_nat (length mems) - 1)%Z
            && negb (curr =? best_channel (shifted rx_freq rx_shift) mems)%Z
         then (best_channel (shifted rx_freq rx_shift) mems,
               sw ++ [switch_entry AOS mems rx_freq tx_freq i rx_shift tx_shift])
         else (curr, sw)),
     with_date o (second_of_pass AOS i)).
Proof.
  intros E. unfold shift_times_body.
  cbv beta iota delta [bind set_date].
  change (AOS + inject_Z i * SECOND) with (second_of_pass AOS i).
  rewrite E. cbn [lift unpack2]. fold (shifted rx_freq rx_shift).
  fold (shifted tx_freq tx_shift).
  destruct ((curr <? Z.of_nat (length mems) - 1)%Z
            && negb (curr =? best_channel (shifted rx_freq rx_shift) mems)%Z);
    reflexivity.
Qed.

Lemma shift_times_body_raise (sat : EarthSatellite) (AOS : Q)
    (mems : list channel) (rx_freq tx_freq : Q) (i : Z)
    (st : Z * list switch) (o : Observer) (e : exn) :
  compute_doppler range_velocity sat rx_freq tx_freq
    (with_date o (second_of_pass AOS i))
  = (Raise e, with_date o (second_of_pass AOS i)) ->
  shift_times_body range_velocity sat AOS mems rx_freq tx_freq i st o
  = (Raise e, with_date o (second_of_pass AOS i)).
Proof.
  intros E. destruct st as [curr sw]. unfold shift_times_body.
  cbv beta iota delta [bind set_date].
  change (AOS + inject_Z i * SECOND) with (second_of_pass AOS i).
  rewrite E. reflexivity.
Qed.

Lemma shift_times_loop_succ (sat : EarthSatellite) (AOS : Q)
    (mems : list channel) (rx_freq tx_freq : Q) (n : Z) (obs : Observer) :
  (0 <= n)%Z ->
  shift_times_loop range_velocity sat AOS mems rx_freq tx_freq (n + 1) obs
  = match shift_times_loop range_velocity sat AOS mems rx_freq tx_freq n obs with
    | (Ok st, o) =>
        shift_times_body range_velocity sat AOS mems rx_freq tx_freq n st o
    | (Raise e, o) => (Raise e, o)
    end.
Proof.
  intros Hn. unfold shift_times_loop.
  rewrite py_range_succ, for_each_app by exact Hn.
  destruct (for_each (py_range n) _ _ obs) as [[st|e] o]; [|reflexivity].
  apply for_each_one.
Qed.

(** One more second, seen from a state reached without exception. *)
Lemma shift_times_loop_step (sat : EarthSatellite) (AOS : Q)
    (mems : list channel) (rx_freq tx_freq : Q) (n curr : Z)
    (sw : list switch) (o obs : Observer) :
  (0 <= n)%Z -> same_place o obs ->
  shift_times_loop range_velocity sat AOS mems rx_freq tx_freq n obs
  = (Ok (curr, sw), o) ->
  (exists rx_shift tx_shift : Q,
      compute_doppler range_velocity sat rx_freq tx_freq
        (with_date obs (second_of_pass AOS n))
      = (Ok [rx_shift; tx_shift], with_date obs (second_of_pass AOS n))
      /\ shift_times_loop range_velocity sat AOS mems rx_freq tx_freq (n + 1) obs
         = (Ok (if (curr <? Z.of_nat (length mems) - 1)%Z
                   && negb (curr =? best_channel (shifted rx_freq rx_shift) mems)%Z
                then (best_channel (shifted rx_freq rx_shift) mems,
                      sw ++ [switch_entry AOS mems rx_freq tx_freq n
                               rx_shift tx_shift])
                else (curr, sw)),
            with_date obs (second_of_pass AOS n)))
  \/ (~ shifts_defined
        (range_velocity (with_date obs (second_of_pass AOS n)) sat)
      /\ shift_times_loop range_velocity sat AOS mems rx_freq tx_freq (n + 1) obs
         = (Raise ZeroDivisionError, with_date obs (second_of_pass AOS n))).
Proof.
  intros Hn Hp Hl.
  rewrite (shift_times_loop_succ sat AOS mems rx_freq tx_freq n obs Hn), Hl.
  destruct (compute_doppler_cases sat rx_freq tx_freq
              (with_date obs (second_of_pass AOS n)))
    as [(a & b & E)|[Hv E]].
  - left. exists a, b. split; [exact E|].
    rewrite <- (with_date_same_place o obs _ Hp) in E |- *.
    now apply shift_times_body_run.
  - right. split; [exact Hv|].
    rewrite <- (with_date_same_place o obs _ Hp) in E |- *.
    now apply shift_times_body_raise.
Qed.

(** What holds after the seconds [0 .. n-1]: the observer has not moved,
    and the recorded times are dates of seconds below [n], in increasing
    order. *)
Lemma shift_times_loop_inv (sat : EarthSatellite) (AOS : Q)
    (mems : list channel) (rx_freq tx_freq : Q) (obs : Observer) (n : nat) :
  forall (r : result (Z * list switch)) (o : Observer),
    shift_times_loop range_velocity sat AOS mems rx_freq tx_freq
      (Z.of_nat n) obs = (r, o) ->
    same_place o obs
    /\ forall (curr : Z) (sw : list switch), r = Ok (curr, sw) ->
       exists js : list Z,
         map sw_time sw = map (second_of_pass AOS) js
         /\ StronglySorted Z.lt js
         /\ Forall (fun j => (0 <= j < Z.of_nat n)%Z) js.
Proof.
  induction n as [|n IH]; intros r o Hl.
  - injection Hl as <- <-. split; [repeat split|].
    intros curr sw [= <- <-]. exists []. repeat constructor.
  - replace (Z.of_nat (S n)) with (Z.of_nat n + 1)%Z in * by lia.
    destruct (shift_times_loop range_velocity sat AOS mems rx_freq tx_freq
                (Z.of_nat n) obs) as [[[curr0 sw0]|e] o0] eqn:E0.
    + destruct (IH _ _ eq_refl) as [Hp Hsw].
      destruct (Hsw _ _ eq_refl) as (js & Hmap & Hsorted & Hall).
      assert (Hall' : Forall (fun j => (0 <= j < Z.of_nat n + 1)%Z) js).
      { eapply Forall_impl; [|exact Hall]. intros j Hj. cbv beta in Hj. lia. }
      destruct (shift_times_loop_step sat AOS mems rx_freq tx_freq
                  (Z.of_nat n) curr0 sw0 o0 obs (Nat2Z.is_nonneg n) Hp E0)
        as [(a & b & _ & E1)|[_ E1]];
        rewrite E1 in Hl; injection Hl as <- <-;
        (split; [repeat split|]); [|discriminate].
      intros curr sw Hst.
      destruct ((curr0 <? Z.of_nat (length mems) - 1)%Z
                && negb (curr0 =? best_channel (shifted rx_freq a) mems)%Z);
        injection Hst as <- <-.
      * exists (js ++ [Z.of_nat n]).
        rewrite !map_app, Hmap. split; [reflexivity|]. split.
        -- apply StronglySorted_snoc; [exact Hsorted|].
           eapply Forall_impl; [|exact Hall]. intros j Hj. cbv beta in Hj. lia.
        -- apply Forall_app. split; [exact Hall'|].
           constructor; [lia|constructor].
      * exists js. auto.
    + rewrite shift_times_loop_succ, E0 in Hl by lia.
      injection Hl as <- <-.
      split; [exact (proj1 (IH _ _ eq_refl))|discriminate].
Qed.

(** The loop goes through when both shifts are defined at every second. *)
Lemma shift_times_loop_total (sat : EarthSatellite) (AOS : Q)
    (mems : list channel) (rx_freq tx_freq : Q) (obs : Observer) (n : nat) :
  (forall i : Z, (0 <= i < Z.of_nat n)%Z ->
     shifts_defined
       (range_velocity (with_date obs (second_of_pass AOS i)) sat)) ->
  exists (st : Z * list switch) (o : Observer),
    shift_times_loop range_velocity sat AOS mems rx_freq tx_freq
      (Z.of_nat n) obs = (Ok st, o).
Proof.
  induction n as [|n IH]; intros Hv.
  - eexists. eexists. reflexivity.
  - destruct IH as ([curr sw] & o & E); [intros i Hi; apply Hv; lia|].
    replace (Z.of_nat (S n)) with (Z.of_nat n + 1)%Z in * by lia.
    destruct (shift_times_loop_inv sat AOS mems rx_freq tx_freq obs n _ _ E)
      as [Hp _].
    destruct (shift_times_loop_step sat AOS mems rx_freq tx_freq
                (Z.of_nat n) curr sw o obs (Nat2Z.is_nonneg n) Hp E)
      as [(a & b & _ & E1)|[Hn _]].
    + rewrite E1. eexists. eexists. reflexivity.
    + exfalso. apply Hn, Hv. lia.
Qed.

(** Switches are only ever appended. *)
Lemma shift_times_loop_extends (sat : EarthSatellite) (AOS : Q)
    (mems : list channel) (rx_freq tx_freq : Q) (obs : Observer)
    (n : nat) (curr : Z) (sw : list switch) (o : Observer) (k : nat) :
  shift_times_loop range_velocity sat AOS mems rx_freq tx_freq
    (Z.of_nat n) obs = (Ok (curr, sw), o) ->
  forall (curr' : Z) (sw' : list switch) (o' : Observer),
    shift_times_loop range_velocity sat AOS mems rx_freq tx_freq
      (Z.of_nat (n + k)) obs = (Ok (curr', sw'), o') ->
    exists rest : list switch, sw' = sw ++ rest.
Proof.
  intros E. induction k as [|k IH]; intros curr' sw' o' E'.
  - rewrite Nat.add_0_r, E in E'. injection E' as <- <- <-.
    exists []. now rewrite app_nil_r.
  - replace (Z.of_nat (n + S k)) with (Z.of_nat (n + k) + 1)%Z in E' by lia.
    destruct (shift_times_loop range_velocity sat AOS mems rx_freq tx_freq
                (Z.of_nat (n + k)) obs) as [[[curr0 sw0]|e] o0] eqn:E0.
    + destruct (IH _ _ _ eq_refl) as [rest ->].
      destruct (shift_times_loop_inv sat AOS mems rx_freq tx_freq obs
                  (n + k) _ _ E0) as [Hp _].
      destruct (shift_times_loop_step sat AOS mems rx_freq tx_freq
                  (Z.of_nat (n + k)) curr0 (sw ++ rest) o0 obs
                  (Nat2Z.is_nonneg _) Hp E0)
        as [(a & b & _ & E1)|[_ E1]];
        rewrite E1 in E'; [|discriminate].
      destruct ((curr0 <? Z.of_nat (length mems) - 1)%Z
                && negb (curr0 =? best_channel (shifted rx_freq a) mems)%Z);
        injection E' as <- <- <-.
      * eexists. now rewrite <- app_assoc.
      * eexists. reflexivity.
    + rewrite shift_times_loop_succ, E0 in E' by lia. discriminate.
Qed.

Lemma compute_shift_times_run (sat : EarthSatellite) (AOS LOS : Q)
    (mems : list channel) (rx_freq tx_freq : Q) (obs : Observer) :
  compute_shift_times range_velocity sat AOS LOS mems rx_freq tx_freq obs
  = match shift_times_loop range_velocity sat AOS mems rx_freq tx_freq
            (Z.of_nat (Z.to_nat (pass_intervals AOS LOS))) obs with
    | (Ok st, o) => (Ok (snd st), o)
    | (Raise e, o) => (Raise e, o)
    end.
Proof.
  unfold compute_shift_times, shift_times_loop, bind, ret.
  rewrite <- py_range_to_nat. reflexivity.
Qed.



End EphemProperties.

(** ** [next_high_pass] *)

Section PassProperties.

Variable next_pass_of : Observer -> EarthSatellite -> result Pass.

Lemma next_high_pass_loop_exit (fuel : nat) (sat : EarthSatellite)
    (min_elevation : Q) (st : hp_state) (obs : Observer) :
  hp_continue min_elevation st = false ->
  next_high_pass_loop next_pass_of fuel sat min_elevation st obs
  = Some (Ok st, obs).
Proof. intros H. destruct fuel; simpl; rewrite H; reflexivity. Qed.

Lemma next_high_pass_loop_iter (fuel : nat) (sat : EarthSatellite)
    (min_elevation : Q) (st : hp_state) (obs : Observer) :
  hp_continue min_elevation st = true ->
  next_high_pass_loop next_pass_of (S fuel) sat min_elevation st obs
  = match next_pass_of obs sat with
    | Raise e => Some (Raise e, obs)
    | Ok next_pass =>
        next_high_pass_loop next_pass_of fuel sat min_elevation
          (mkHp (elevation_of next_pass) (hp_limit st - 0) (Some next_pass))
          (with_date obs (set_time next_pass))
    end.
Proof. intros H. simpl. rewrite H. reflexivity. Qed.

Lemma hp_continue_true (min_elevation : Q) (st : hp_state) :
  hp_elevation st < min_elevation -> (0 < hp_limit st)%Z ->
  hp_continue min_elevation st = true.
Proof.
  intros He Hl. unfold hp_continue.
  destruct (Qlt_le_dec (hp_elevation st) min_elevation) as [_|Hge].
  - now apply Z.ltb_lt in Hl; rewrite Hl.
  - exfalso. exact (Qlt_not_le _ _ He Hge).
Qed.

(** The loop hands [limit] on unchanged. *)
Lemma next_high_pass_loop_limit (fuel : nat) (sat : EarthSatellite)
    (min_elevation : Q) :
  forall (st st' : hp_state) (obs obs' : Observer),
    next_high_pass_loop next_pass_of fuel sat min_elevation st obs
    = Some (Ok st', obs') ->
    hp_limit st' = hp_limit st.
Proof.
  induction fuel as [|fuel IH]; intros st st' obs obs' H;
    destruct (hp_continue min_elevation st) eqn:Hc.
  - simpl in H. rewrite Hc in H. discriminate.
  - rewrite next_high_pass_loop_exit in H by exact Hc. now injection H as <- _.
  - rewrite next_high_pass_loop_iter in H by exact Hc.
    destruct (next_pass_of obs sat) as [p|e]; [|discriminate].
    apply IH in H. cbn [hp_limit] in H. lia.
  - rewrite next_high_pass_loop_exit in H by exact Hc. now injection H as <- _.
Qed.

(** From a state with a positive [limit] and an elevation below
    [min_elevation], the function does what the search without a limit
    does. *)
Lemma next_high_pass_loop_search (fuel : nat) (sat : EarthSatellite)
    (min_elevation : Q) :
  forall (st : hp_state) (obs : Observer),
    (0 < hp_limit st)%Z -> hp_elevation st < min_elevation ->
    match next_high_pass_loop next_pass_of fuel sat min_elevation st obs with
    | None => None
    | Some (r, obs') =>
        match rbind r next_high_pass_return with
        | Ok v => Some (v, obs')
        | Raise _ => Some (None, obs')
        end
    end
    = search_passes next_pass_of fuel sat min_elevation obs.
Proof.
  induction fuel as [|fuel IH]; intros st obs Hl He;
    assert (Hc := hp_continue_true _ _ He Hl).
  - simpl. rewrite Hc. reflexivity.
  - rewrite next_high_pass_loop_iter by exact Hc. cbn [search_passes].
    destruct (next_pass_of obs sat) as [p|e]; [|reflexivity].
    destruct (Qle_bool min_elevation (elevation_of p)) eqn:Hm.
    + rewrite next_high_pass_loop_exit.
      * cbn [rbind]. unfold next_high_pass_return. cbn [hp_limit hp_next_pass].
        replace (0 <? hp_limit st - 0)%Z with true
          by (symmetry; apply Z.ltb_lt; lia).
        reflexivity.
      * unfold hp_continue. cbn [hp_elevation].
        apply Qle_bool_iff in Hm.
        destruct (Qlt_le_dec (elevation_of p) min_elevation) as [Hlt|_];
          [|reflexivity].
        exfalso. exact (Qlt_not_le _ _ Hlt Hm).
    + apply IH; cbn [hp_limit hp_elevation]; [lia|].
      apply Qnot_le_lt. intros Hle. apply Qle_bool_iff in Hle. congruence.
Qed.

Lemma search_passes_found (sat : EarthSatellite) (min_elevation : Q)
    (fuel : nat) :
  forall (obs obs' : Observer) (p : Pass),
    search_passes next_pass_of fuel sat min_elevation obs = Some (Some p, obs') ->
    min_elevation <= elevation_of p
    /\ exists o : Observer,
         next_pass_of o sat = Ok p /\ obs' = with_date o (set_time p).
Proof.
  induction fuel as [|fuel IH]; intros obs obs' p H; [discriminate|].
  cbn [search_passes] in H.
  destruct (next_pass_of obs sat) as [q|e] eqn:Eo; [|discriminate].
  destruct (Qle_bool min_elevation (elevation_of q)) eqn:Hm.
  - injection H as <- <-. split; [now apply Qle_bool_iff|].
    exists obs. split; [exact Eo|reflexivity].
  - exact (IH _ _ _ H).
Qed.

Lemma search_passes_none (sat : EarthSatellite) (min_elevation : Q)
    (fuel : nat) :
  forall obs obs' : Observer,
    search_passes next_pass_of fuel sat min_elevation obs = Some (None, obs') ->
    exists e : exn, next_pass_of obs' sat = Raise e.
Proof.
  induction fuel as [|fuel IH]; intros obs obs' H; [discriminate|].
  cbn [search_passes] in H.
  destruct (next_pass_of obs sat) as [q|e] eqn:Eo.
  - destruct (Qle_bool min_elevation (elevation_of q)); [discriminate|].
    exact (IH _ _ H).
  - injection H as <-. exists e. exact Eo.
Qed.

Lemma search_passes_mono (sat : EarthSatellite) (min_elevation : Q)
    (fuel : nat) :
  forall (fuel' : nat) (obs : Observer) (r : option Pass * Observer),
    (fuel <= fuel')%nat ->
    search_passes next_pass_of fuel sat min_elevation obs = Some r ->
    search_passes next_pass_of fuel' sat min_elevation obs = Some r.
Proof.
  induction fuel as [|fuel IH]; intros fuel' obs r Hle H; [discriminate|].
  destruct fuel' as [|fuel']; [lia|].
  cbn [search_passes] in *.
  destruct (next_pass_of obs sat) as [q|e]; [|exact H].
  destruct (Qle_bool min_elevation (elevation_of q)); [exact H|].
  apply IH; [lia|exact H].
Qed.

Lemma search_passes_stops (sat : EarthSatellite) (min_elevation : Q)
    (n : nat) :
  forall obs : Observer,
    (exists r, search_passes next_pass_of n sat min_elevation obs = Some r)
    <-> stops_within next_pass_of n sat min_elevation obs.
Proof.
  induction n as [|n IH]; intros obs; cbn [search_passes stops_within].
  - split; [intros [r H]; discriminate|contradiction].
  - destruct (next_pass_of obs sat) as [q|e].
    + destruct (Qle_bool min_elevation (elevation_of q)).
      * split; [trivial|]. intros _. eexists. reflexivity.
      * apply IH.
    + split; [trivial|]. intros _. eexists. reflexivity.
Qed.

(** X23: [limit] is handed on unchanged by the loop (its body runs
    [limit -= 0]); for [limit > 0] and [min_elevation > 0] the function is
    the search without a limit: it returns the first pass that reaches
    [min_elevation], or [None] when [next_pass] raises, and it returns
    exactly when one of the two happens within finitely many passes. *)
Theorem next_high_pass_ignores_limit (sat : EarthSatellite)
    (min_elevation : Q) (limit : Z) (obs : Observer) :
  (0 < limit)%Z -> 0 < min_elevation ->
  (forall (fuel : nat) (st : hp_state) (obs' : Observer),
      next_high_pass_loop next_pass_of fuel sat min_elevation
        (mkHp 0 limit None) obs = Some (Ok st, obs') ->
      hp_limit st = limit)
  /\ (forall fuel : nat,
        next_high_pass next_pass_of fuel sat min_elevation limit obs
        = search_passes next_pass_of fuel sat min_elevation obs)
  /\ (forall (fuel : nat) (p : Pass) (obs' : Observer),
        next_high_pass next_pass_of fuel sat min_elevation limit obs
        = Some (Some p, obs') ->
        min_elevation <= elevation_of p
        /\ exists o : Observer,
             next_pass_of o sat = Ok p /\ obs' = with_date o (set_time p))
  /\ (forall (fuel : nat) (obs' : Observer),
        next_high_pass next_pass_of fuel sat min_elevation limit obs
        = Some (None, obs') ->
        exists e : exn, next_pass_of obs' sat = Raise e)
  /\ (forall (fuel fuel' : nat) (r : option Pass * Observer),
        (fuel <= fuel')%nat ->
        next_high_pass next_pass_of fuel sat min_elevation limit obs = Some r ->
        next_high_pass next_pass_of fuel' sat min_elevation limit obs = Some r)
  /\ ((exists (fuel : nat) (r : option Pass * Observer),
          next_high_pass next_pass_of fuel sat min_elevation limit obs = Some r)
      <-> exists n : nat, stops_within next_pass_of n sat min_elevation obs).
Proof.
  intros Hl Hm.
  assert (Heq : forall fuel : nat,
             next_high_pass next_pass_of fuel sat min_elevation limit obs
             = search_passes next_pass_of fuel sat min_elevation obs).
  { intros fuel. unfold next_high_pass.
    apply next_high_pass_loop_search; cbn [hp_limit hp_elevation]; assumption. }
  split.
  { intros fuel st obs' H.
    exact (next_high_pass_loop_limit _ _ _ _ _ _ _ H). }
  split; [exact Heq|].
  split.
  { intros fuel p obs' H. rewrite Heq in H.
    exact (search_passes_found _ _ _ _ _ _ H). }
  split.
  { intros fuel obs' H. rewrite Heq in H.
    exact (search_passes_none _ _ _ _ _ H). }
  split.
  { intros fuel fuel' r Hle H. rewrite Heq in *.
    exact (search_passes_mono _ _ _ _ _ _ Hle H). }
  split.
  - intros (fuel & r & H). exists fuel. rewrite Heq in H.
    apply search_passes_stops. now exists r.
  - intros [n Hn]. exists n.
    apply search_passes_stops in Hn. destruct Hn as [r Hr].
    exists r. now rewrite Heq.
Qed.

End PassProperties.

(** ** The averaging step of [main] *)

Lemma accumulate_length (mem_set average_memory : list channel) :
  length (accumulate mem_set average_memory) = length average_memory.
Proof.
  revert average_memory.
  induction mem_set as [|m ms IH]; intros [|a avg]; simpl; auto.
Qed.

Lemma accumulate_nth (mem_set average_memory : list channel) (k : nat) :
  length mem_set = length average_memory ->
  (k < length average_memory)%nat ->
  nth k (accumulate mem_set average_memory) (0, 0)
  = (fst (nth k average_memory (0, 0)) + fst (nth k mem_set (0, 0)),
     snd (nth k average_memory (0, 0)) + snd (nth k mem_set (0, 0))).
Proof.
  revert average_memory k.
  induction mem_set as [|m ms IH]; intros [|a avg] k Hl Hk;
    simpl in *; try lia.
  destruct k as [|k]; [reflexivity|].
  apply IH; lia.
Qed.

Lemma accumulate_all_length (memory_sets : list (list channel))
    (average_memory : list channel) :
  length (fold_left
            (fun average_memory mem_set => accumulate mem_set average_memory)
            memory_sets average_memory)
  = length average_memory.
Proof.
  revert average_memory.
  induction memory_sets as [|s sets IH]; intros avg; simpl; [reflexivity|].
  now rewrite IH, accumulate_length.
Qed.

Lemma accumulate_all_nth (memory_sets : list (list channel))
    (average_memory : list channel) (k : nat) :
  Forall (fun mem_set => length mem_set = length average_memory) memory_sets ->
  (k < length average_memory)%nat ->
  let total :=
    nth k (fold_left
             (fun average_memory mem_set => accumulate mem_set average_memory)
             memory_sets average_memory) (0, 0) in
  fst total == fst (nth k average_memory (0, 0)) + column_sum fst k memory_sets
  /\ snd total == snd (nth k average_memory (0, 0)) + column_sum snd k memory_sets.
Proof.
  revert average_memory.
  induction memory_sets as [|s sets IH]; intros avg Hall Hk;
    cbv zeta; unfold column_sum; cbn [fold_left fold_right].
  - split; ring.
  - inversion Hall as [|? ? Hs Hsets]; subst.
    destruct (IH (accumulate s avg)) as [Hf Hs'].
    + rewrite accumulate_length. exact Hsets.
    + now rewrite accumulate_length.
    + cbv zeta in Hf, Hs'. unfold column_sum in Hf, Hs'. rewrite Hf, Hs'.
      rewrite (accumulate_nth s avg k Hs Hk). cbn [fst snd]. split; ring.
Qed.

Lemma divide_all_ok (average_memory : list channel) (total_tests : Z) :
  total_tests <> 0%Z ->
  divide_all average_memory total_tests
  = Ok (map (fun mem => (fst mem / inject_Z total_tests,
                         snd mem / inject_Z total_tests)) average_memory).
Proof.
  intros Ht.
  induction average_memory as [|m avg IH]; simpl; [reflexivity|].
  rewrite !(py_div_ok _ _ (inject_Z_nonzero _ Ht)). simpl.
  rewrite IH. reflexivity.
Qed.

Lemma zero_rows_nth (channels : Z) (k : nat) :
  nth k (map (fun _ : Z => ((0, 0) : channel)) (py_range channels)) (0, 0)
  = (0, 0).
Proof.
  generalize (py_range channels). intros l. revert k.
  induction l as [|x l IH]; intros [|k]; simpl; auto.
Qed.

(** C7: when [total_tests >= 1] memory sets have been collected, each of
    length [channels], the averaging step of [main] yields [channels]
    pairs, and the pair at index [k] holds the arithmetic means of the
    receive and of the transmit entries at index [k] of the sets. *)
Theorem main_average_memory_mean (channels total_tests : Z)
    (memory_sets : list (list channel)) :
  Z.of_nat (length memory_sets) = total_tests ->
  Forall (fun mem_set => Z.of_nat (length mem_set) = channels) memory_sets ->
  (1 <= total_tests)%Z ->
  exists average_memory : list channel,
    main_average_memory channels total_tests memory_sets = Ok average_memory
    /\ length average_memory = Z.to_nat channels
    /\ forall k : nat, (k < Z.to_nat channels)%nat ->
       exists r t : Q,
         nth_error average_memory k = Some (r, t)
         /\ r == column_mean fst k memory_sets
         /\ t == column_mean snd k memory_sets.
Proof.
  intros Hlen Hall Ht.
  unfold main_average_memory.
  rewrite divide_all_ok by lia.
  eexists. split; [reflexivity|].
  set (zeros := map (fun _ : Z => ((0, 0) : channel)) (py_range channels)).
  assert (Hz : length zeros = Z.to_nat channels).
  { unfold zeros. now rewrite length_map, py_range_length. }
  split.
  - now rewrite length_map, accumulate_all_length.
  - intros k Hk.
    rewrite nth_error_map.
    rewrite (nth_error_nth' _ (0, 0))
      by (rewrite accumulate_all_length; lia).
    cbn [option_map]. eexists. eexists. split; [reflexivity|].
    destruct (accumulate_all_nth memory_sets zeros k) as [Hf Hs].
    + rewrite Hz. eapply Forall_impl; [|exact Hall].
      intros a Ha. cbv beta in Ha. lia.
    + lia.
    + cbv zeta in Hf, Hs. unfold column_mean. rewrite Hlen.
      unfold zeros in Hf, Hs. rewrite zero_rows_nth in Hf, Hs.
      simpl fst in Hf. simpl snd in Hs.
      assert (Hnz : ~ inject_Z total_tests == 0)
        by (apply inject_Z_nonzero; lia).
      split.
      * unfold zeros. rewrite Hf. field. exact Hnz.
      * unfold zeros. rewrite Hs. field. exact Hnz.
Qed.

(** ** The claims at the sample inputs *)

Lemma compute_doppler_freqs_interpolates_witness :
  (2 <= 5)%Z
  /\ fst (compute_doppler Sample.range_velocity Sample.sat
            Sample.rx_freq Sample.tx_freq (with_date Sample.obs 0))
     = Ok [Sample.shift_at Sample.rx_freq (-1 * -6000);
           Sample.shift_at Sample.tx_freq (-6000)]
  /\ fst (compute_doppler Sample.range_velocity Sample.sat
            Sample.rx_freq Sample.tx_freq (with_date Sample.obs (1 # 144)))
     = Ok [Sample.shift_at Sample.rx_freq (-1 * 6000);
           Sample.shift_at Sample.tx_freq 6000]
  /\ exists mems : list channel,
       fst (compute_doppler_freqs Sample.range_velocity Sample.sat 0 (1 # 144) 5
              Sample.rx_freq Sample.tx_freq Sample.obs) = Ok mems
       /\ Z.of_nat (length mems) = 5%Z.
Proof.
  assert (H0 : (2 <= 5)%Z) by lia.
  assert (H1 : fst (compute_doppler Sample.range_velocity Sample.sat
                      Sample.rx_freq Sample.tx_freq (with_date Sample.obs 0))
               = Ok [Sample.shift_at Sample.rx_freq (-1 * -6000);
                     Sample.shift_at Sample.tx_freq (-6000)])
    by reflexivity.
  assert (H2 : fst (compute_doppler Sample.range_velocity Sample.sat
                      Sample.rx_freq Sample.tx_freq
                      (with_date Sample.obs (1 # 144)))
               = Ok [Sample.shift_at Sample.rx_freq (-1 * 6000);
                     Sample.shift_at Sample.tx_freq 6000])
    by reflexivity.
  split; [exact H0|]. split; [exact H1|]. split; [exact H2|].
  destruct (compute_doppler_freqs_interpolates Sample.range_velocity
              Sample.sat 0 (1 # 144) 5 Sample.rx_freq Sample.tx_freq Sample.obs
              _ _ _ _ H0 H1 H2) as (mems & Hm & Hl & _).
  exists mems. split; assumption.
Defined.

Lemma compute_doppler_freqs_one_channel_witness :
  (2 <= 5)%Z /\ py_div 3 (inject_Z (5 - 1)) = Ok (3 / inject_Z (5 - 1)).
Proof.
  split; [lia|].
  apply (proj2 (proj2 (compute_doppler_freqs_one_channel Sample.range_velocity
                         Sample.sat 0 (1 # 144) Sample.rx_freq Sample.tx_freq
                         Sample.obs))).
  lia.
Defined.


Lemma sample_shifts_defined (o : Observer) (s : EarthSatellite) :
  shifts_defined (Sample.range_velocity o s).
Proof.
  unfold Sample.range_velocity.
  destruct (Qle_bool (date o) 0); split; vm_compute; discriminate.
Qed.






Lemma main_average_memory_mean_witness :
  Z.of_nat (length Sample.memory_sets) = 2%Z
  /\ Forall (fun mem_set : list channel => Z.of_nat (length mem_set) = 2%Z)
       Sample.memory_sets
  /\ (1 <= 2)%Z
  /\ exists average_memory : list channel,
       main_average_memory 2 2 Sample.memory_sets = Ok average_memory
       /\ length average_memory = Z.to_nat 2.
Proof.
  assert (H1 : Z.of_nat (length Sample.memory_sets) = 2%Z) by reflexivity.
  assert (H2 : Forall (fun mem_set : list channel =>
                         Z.of_nat (length mem_set) = 2%Z) Sample.memory_sets)
    by (repeat constructor).
  assert (H3 : (1 <= 2)%Z) by lia.
  split; [exact H1|]. split; [exact H2|]. split; [exact H3|].
  destruct (main_average_memory_mean 2 2 Sample.memory_sets H1 H2 H3)
    as (average_memory & Ha & Hl & _).
  exists average_memory. split; assumption.
Defined.

Lemma next_high_pass_ignores_limit_witness :
  (0 < 2)%Z /\ 0 < 10
  /\ exists (p : Pass) (obs' : Observer),
       next_high_pass Sample.next_pass_of 3 Sample.sat 10 2 Sample.obs
       = Some (Some p, obs')
       /\ date obs' = (0 + (1 # 2)) + (1 # 2) + (1 # 2)
       /\ 10 <= elevation_of p.
Proof.
  assert (H1 : (0 < 2)%Z) by lia.
  assert (H2 : 0 < 10) by reflexivity.
  split; [exact H1|]. split; [exact H2|].
  destruct (next_high_pass_ignores_limit Sample.next_pass_of Sample.sat 10 2
              Sample.obs H1 H2) as (_ & _ & Hfound & _).
  eexists. eexists. split; [reflexivity|]. split; [reflexivity|].
  exact (proj1 (Hfound 3%nat _ _ eq_refl)).
Defined.

(** C9, at the failing input [min_elevation = 0], [limit = 25]: whatever
    the fuel, the loop is not entered and [None] is returned (reading the
    unbound [next_pass] raises, outside the loop, and the bare [except]
    swallows it), although [next_pass] never raises and its first pass
    already reaches [min_elevation]; the search the claim describes
    returns that pass. *)
Lemma next_high_pass_zero_min_elevation :
  (0 < 25)%Z
  /\ (forall fuel : nat,
        next_high_pass Sample.next_pass_of fuel Sample.sat 0 25 Sample.obs
        = Some (None, Sample.obs))
  /\ (forall o : Observer,
        exists p : Pass,
          Sample.next_pass_of o Sample.sat = Ok p /\ 0 <= elevation_of p)
  /\ (exists (p : Pass) (obs' : Observer),
        search_passes Sample.next_pass_of 1 Sample.sat 0 Sample.obs
        = Some (Some p, obs'))
  /\ next_high_pass Sample.next_pass_of 1 Sample.sat 0 25 Sample.obs
     <> search_passes Sample.next_pass_of 1 Sample.sat 0 Sample.obs.
Proof.
  split; [lia|]. split.
  { intros fuel. unfold next_high_pass.
    rewrite next_high_pass_loop_exit by reflexivity. reflexivity. }
  split.
  { intros o. eexists. split; [reflexivity|].
    unfold elevation_of. cbn [max_alt].
    destruct (Qle_bool 1 (date o)); vm_compute; discriminate. }
  split.
  { eexists. eexists. reflexivity. }
  vm_compute. discriminate.
Qed.

(** * Further properties of the code *)

(** ** Doppler arithmetic *)

(** X1: where it is defined, the shift of [doppler_shift] is zero exactly
    when the frequency is zero (the "not used" default) or the velocity is
    zero. *)
Theorem doppler_shift_vanishes (f0 v : Q) :
  ~ C + v == 0 ->
  exists s : Q,
    doppler_shift f0 v = Ok s /\ (s == 0 <-> f0 == 0 \/ v == 0).
Proof.
  intros Hv. eexists. split; [now apply doppler_shift_ok|].
  assert (E : (f0 * 1000000 - C / (C + v) * (f0 * 1000000)) * (C + v)
              == 1000000 * (f0 * v)) by (field; exact Hv).
  split.
  - intros Hs. rewrite Hs in E.
    assert (E' : f0 * v == 0) by lra.
    destruct (Qmult_integral _ _ E'); [now left|now right].
  - intros Hz.
    assert (E' : f0 * v == 0).
    { destruct Hz as [Hz|Hz]; rewrite Hz; ring. }
    rewrite E' in E.
    destruct (Qmult_integral _ _ (Qeq_trans _ _ _ E (Qmult_0_r 1000000)))
      as [Hs|Hc]; [exact Hs|contradiction].
Qed.

Lemma doppler_shift_vanishes_witness :
  ~ C + 6000 == 0
  /\ exists s : Q,
       doppler_shift 0 6000 = Ok s /\ (s == 0 <-> 0 == 0 \/ 6000 == 0).
Proof.
  assert (H : ~ C + 6000 == 0) by (vm_compute; discriminate).
  split; [exact H|]. exact (doppler_shift_vanishes 0 6000 H).
Defined.

(** X2: with a positive frequency and a velocity above [-C], the shift
    equals [f0 * 10^6 * v / (C + v)] and so has the sign of the velocity. *)
Theorem doppler_shift_closed_form (f0 v s : Q) :
  0 < f0 -> 0 < C + v -> doppler_shift f0 v = Ok s ->
  s == f0 * 1000000 * v / (C + v)
  /\ (0 < v -> 0 < s) /\ (v < 0 -> s < 0).
Proof.
  intros Hf Hc Hs.
  destruct (doppler_shift_sign f0 v s Hf Hc Hs) as (Hp & Hn & _).
  rewrite doppler_shift_ok in Hs by lra. injection Hs as <-.
  split; [field; lra|]. split; assumption.
Qed.

Lemma doppler_shift_closed_form_witness :
  0 < Sample.rx_freq /\ 0 < C + 6000
  /\ doppler_shift Sample.rx_freq 6000
     = Ok (Sample.shift_at Sample.rx_freq 6000)
  /\ 0 < Sample.shift_at Sample.rx_freq 6000.
Proof.
  assert (H1 : 0 < Sample.rx_freq) by reflexivity.
  assert (H2 : 0 < C + 6000) by reflexivity.
  assert (H3 : doppler_shift Sample.rx_freq 6000
               = Ok (Sample.shift_at Sample.rx_freq 6000)) by reflexivity.
  split; [exact H1|]. split; [exact H2|]. split; [exact H3|].
  apply (doppler_shift_closed_form Sample.rx_freq 6000 _ H1 H2 H3).
  reflexivity.
Defined.

(** X3: converting a shift to another frequency and back gives the shift
    again, and converting to the same frequency changes nothing. *)
Theorem doppler_convert_round_trip (f_orig f_new f_shift : Q) :
  ~ f_orig == 0 -> ~ f_new == 0 ->
  exists there back same : Q,
    doppler_convert f_orig f_shift f_new = Ok there
    /\ doppler_convert f_new there f_orig = Ok back
    /\ back == f_shift
    /\ doppler_convert f_orig f_shift f_orig = Ok same
    /\ same == f_shift.
Proof.
  intros Ho Hn. eexists. eexists. eexists.
  split; [now apply doppler_convert_ok|].
  split; [now apply doppler_convert_ok|].
  split; [field; split; assumption|].
  split; [now apply doppler_convert_ok|].
  field. exact Ho.
Qed.

Lemma doppler_convert_round_trip_witness :
  ~ Sample.rx_freq == 0 /\ ~ Sample.tx_freq == 0
  /\ exists there back same : Q,
       doppler_convert Sample.rx_freq 3400 Sample.tx_freq = Ok there
       /\ doppler_convert Sample.tx_freq there Sample.rx_freq = Ok back
       /\ back == 3400
       /\ doppler_convert Sample.rx_freq 3400 Sample.rx_freq = Ok same
       /\ same == 3400.
Proof.
  assert (H1 : ~ Sample.rx_freq == 0) by (vm_compute; discriminate).
  assert (H2 : ~ Sample.tx_freq == 0) by (vm_compute; discriminate).
  split; [exact H1|]. split; [exact H2|].
  exact (doppler_convert_round_trip Sample.rx_freq Sample.tx_freq 3400 H1 H2).
Defined.

(** X4: conversions compose: going from [f1] to [f3] through [f2] gives
    what the direct conversion gives. *)
Theorem doppler_convert_compose (f1 f2 f3 f_shift : Q) :
  ~ f1 == 0 -> ~ f2 == 0 ->
  exists s12 s23 s13 : Q,
    doppler_convert f1 f_shift f2 = Ok s12
    /\ doppler_convert f2 s12 f3 = Ok s23
    /\ doppler_convert f1 f_shift f3 = Ok s13
    /\ s23 == s13.
Proof.
  intros H1 H2. eexists. eexists. eexists.
  split; [now apply doppler_convert_ok|].
  split; [now apply doppler_convert_ok|].
  split; [now apply doppler_convert_ok|].
  field. split; assumption.
Qed.

Lemma doppler_convert_compose_witness :
  ~ Sample.rx_freq == 0 /\ ~ Sample.tx_freq == 0
  /\ exists s12 s23 s13 : Q,
       doppler_convert Sample.rx_freq 3400 Sample.tx_freq = Ok s12
       /\ doppler_convert Sample.tx_freq s12 1200 = Ok s23
       /\ doppler_convert Sample.rx_freq 3400 1200 = Ok s13
       /\ s23 == s13.
Proof.
  assert (H1 : ~ Sample.rx_freq == 0) by (vm_compute; discriminate).
  assert (H2 : ~ Sample.tx_freq == 0) by (vm_compute; discriminate).
  split; [exact H1|]. split; [exact H2|].
  exact (doppler_convert_compose Sample.rx_freq Sample.tx_freq 1200 3400 H1 H2).
Defined.

(** ** [should_shift_freqs] and [best_channel] *)

(** X5: [should_shift_freqs] switches at the midpoint of the two
    frequencies, the midpoint included, whichever of the two is the higher
    one; when the two are equal it always says to switch. *)
Theorem should_shift_freqs_midpoint (f f_left f_right : Q) :
  (f_left < f_right ->
   (should_shift_freqs f f_left f_right = true
    <-> (f_left + f_right) / 2 <= f))
  /\ (f_right < f_left ->
      (should_shift_freqs f f_left f_right = true
       <-> f <= (f_left + f_right) / 2))
  /\ (f_left == f_right -> should_shift_freqs f f_left f_right = true).
Proof.
  unfold should_shift_freqs. cbv zeta.
  setoid_replace ((f_left + f_right) / 2)
    with ((f_left + f_right) * (1 # 2)) by field.
  split; [|split]; intros H; rewrite Qle_bool_iff;
    apply (Qabs_case (f_right - f)); intros H1;
    apply (Qabs_case (f_left - f)); intros H2;
    try (split; intros H3); lra.
Qed.

Lemma should_shift_freqs_midpoint_witness :
  145797 # 1000 < 145803 # 1000
  /\ (should_shift_freqs (1458 # 10) (145797 # 1000) (145803 # 1000) = true
      <-> ((145797 # 1000) + (145803 # 1000)) / 2 <= 1458 # 10).
Proof.
  assert (H : 145797 # 1000 < 145803 # 1000) by reflexivity.
  split; [exact H|].
  exact (proj1 (should_shift_freqs_midpoint (1458 # 10) (145797 # 1000)
                  (145803 # 1000)) H).
Defined.

Lemma nearest_channel_is_best (freq : Q) (mems : list channel) (b : Z) :
  nearest_channel freq mems b -> b = best_channel freq mems.
Proof.
  intros Hb.
  assert (Hne : mems <> []).
  { destruct Hb as [Hr _]. destruct mems; [simpl in Hr; lia|discriminate]. }
  destruct (best_channel_nearest freq mems Hne) as (Hr' & Hmin' & Hfirst').
  destruct Hb as (Hr & Hmin & Hfirst).
  destruct (Z.lt_trichotomy b (best_channel freq mems)) as [Hlt|[Heq|Hgt]];
    [|exact Heq|]; exfalso.
  - assert (H1 := Hfirst' (Z.to_nat b) ltac:(lia)).
    assert (H2 := Hmin (Z.to_nat (best_channel freq mems)) ltac:(lia)).
    exact (Qlt_not_le _ _ H1 H2).
  - assert (H1 := Hfirst (Z.to_nat (best_channel freq mems)) ltac:(lia)).
    assert (H2 := Hmin' (Z.to_nat b) ltac:(lia)).
    exact (Qlt_not_le _ _ H1 H2).
Qed.

(** X6: [best_channel] returns -1 for an empty channel list; for a
    non-empty one it returns the index of a channel whose receive frequency
    is nearest to [freq], the lowest such index, and no other index has
    these two properties. *)
Theorem best_channel_first_nearest (freq : Q) (mems : list channel) :
  best_channel freq [] = (-1)%Z
  /\ (mems <> [] -> nearest_channel freq mems (best_channel freq mems))
  /\ (forall b : Z, nearest_channel freq mems b -> b = best_channel freq mems).
Proof.
  split; [reflexivity|]. split; [apply best_channel_nearest|].
  apply nearest_channel_is_best.
Qed.

Lemma best_channel_first_nearest_witness :
  Sample.ascending_mems <> []
  /\ nearest_channel (1458 # 10) Sample.ascending_mems
       (best_channel (1458 # 10) Sample.ascending_mems)
  /\ best_channel (1458 # 10) Sample.ascending_mems = 0%Z.
Proof.
  assert (H : Sample.ascending_mems <> []) by discriminate.
  split; [exact H|]. split; [|reflexivity].
  exact (proj1 (proj2 (best_channel_first_nearest (1458 # 10)
                         Sample.ascending_mems)) H).
Defined.

Section FurtherEphemProperties.

Variable range_velocity : Observer -> EarthSatellite -> Q.

(** ** [compute_doppler] *)

(** X7: for positive frequencies and a range velocity strictly between
    [-C] and [C], [compute_doppler] returns its two shifts and leaves the
    observer as it was; the two shifts have opposite signs: a receding
    satellite (positive range velocity) gives a negative receive shift and
    a positive transmit shift, an approaching one the reverse, and at zero
    velocity both are zero. *)
Theorem compute_doppler_opposite_shifts (sat : EarthSatellite)
    (rx_freq tx_freq : Q) (obs : Observer) :
  0 < rx_freq -> 0 < tx_freq ->
  - C < range_velocity obs sat -> range_velocity obs sat < C ->
  exists rx_shift tx_shift : Q,
    compute_doppler range_velocity sat rx_freq tx_freq obs
    = (Ok [rx_shift; tx_shift], obs)
    /\ (0 < range_velocity obs sat -> rx_shift < 0 /\ 0 < tx_shift)
    /\ (range_velocity obs sat < 0 -> 0 < rx_shift /\ tx_shift < 0)
    /\ (range_velocity obs sat == 0 -> rx_shift == 0 /\ tx_shift == 0).
Proof.
  intros Hr Ht Hlo Hhi.
  assert (Hd : shifts_defined (range_velocity obs sat)) by (split; lra).
  destruct (compute_doppler_ok range_velocity sat rx_freq tx_freq obs Hd)
    as (rx_shift & tx_shift & Erx & Etx & E).
  exists rx_shift, tx_shift. split; [exact E|].
  destruct (doppler_shift_sign tx_freq (range_velocity obs sat) tx_shift)
    as (Tp & Tn & Tz); [exact Ht|lra|exact Etx|].
  destruct (doppler_shift_sign rx_freq (-1 * range_velocity obs sat) rx_shift)
    as (Rp & Rn & Rz); [exact Hr|lra|exact Erx|].
  split; [|split]; intros Hv; split.
  - apply Rn. lra.
  - apply Tp. exact Hv.
  - apply Rp. lra.
  - apply Tn. exact Hv.
  - apply Rz. rewrite Hv. ring.
  - apply Tz. exact Hv.
Qed.

(** ** [compute_doppler_freqs] *)

(** X8: for every [channels] other than 1, when both shifts are defined at
    AOS and at LOS, [compute_doppler_freqs] returns a list of
    [max(channels, 0)] entries (the empty list for [channels <= 0]) and
    leaves the observer's date set to LOS. *)
Theorem compute_doppler_freqs_returns (sat : EarthSatellite) (AOS LOS : Q)
    (channels : Z) (rx_freq tx_freq : Q) (obs : Observer) :
  channels <> 1%Z ->
  shifts_defined (range_velocity (with_date obs AOS) sat) ->
  shifts_defined (range_velocity (with_date obs LOS) sat) ->
  exists mems : list channel,
    compute_doppler_freqs range_velocity sat AOS LOS channels
      rx_freq tx_freq obs
    = (Ok mems, with_date obs LOS)
    /\ length mems = Z.to_nat channels
    /\ ((channels <= 0)%Z -> mems = []).
Proof.
  intros Hc Hs He.
  destruct (compute_doppler_ok range_velocity sat rx_freq tx_freq _ Hs)
    as (a & b & _ & _ & Ea).
  destruct (compute_doppler_ok range_velocity sat rx_freq tx_freq _ He)
    as (a' & b' & _ & _ & Eb).
  rewrite (compute_doppler_freqs_run range_velocity sat AOS LOS channels
             rx_freq tx_freq obs _ _ _ _ Ea Eb Hc).
  eexists. split; [reflexivity|]. split.
  - now rewrite length_map, py_range_length.
  - intros Hn. now rewrite py_range_nonpos.
Qed.

(** X9: the entries of [compute_doppler_freqs] are equally spaced: two
    consecutive entries differ by the difference of the LOS and AOS shifts
    divided by [channels - 1], in MHz. *)
Theorem compute_doppler_freqs_equally_spaced (sat : EarthSatellite)
    (AOS LOS : Q) (channels : Z) (rx_freq tx_freq : Q) (obs : Observer)
    (start_rx start_tx end_rx end_tx : Q) (i : Z) :
  (0 <= i)%Z -> (i + 1 < channels)%Z ->
  fst (compute_doppler range_velocity sat rx_freq tx_freq (with_date obs AOS))
  = Ok [start_rx; start_tx] ->
  fst (compute_doppler range_velocity sat rx_freq tx_freq (with_date obs LOS))
  = Ok [end_rx; end_tx] ->
  exists (mems : list channel) (r t r' t' : Q),
    fst (compute_doppler_freqs range_velocity sat AOS LOS channels
           rx_freq tx_freq obs) = Ok mems
    /\ nth_error mems (Z.to_nat i) = Some (r, t)
    /\ nth_error mems (Z.to_nat (i + 1)) = Some (r', t')
    /\ r' - r == (end_rx - start_rx) / inject_Z (channels - 1) / 1000000
    /\ t' - t == (end_tx - start_tx) / inject_Z (channels - 1) / 1000000.
Proof.
  intros H0 Hi Hs He.
  assert (Hz : ~ inject_Z (channels - 1) == 0) by (apply inject_Z_nonzero; lia).
  assert (Hs' : compute_doppler range_velocity sat rx_freq tx_freq
                  (with_date obs AOS) = (Ok [start_rx; start_tx], with_date obs AOS)).
  { destruct (compute_doppler_cases range_velocity sat rx_freq tx_freq
                (with_date obs AOS)) as [(a & b & E)|[_ E]];
      rewrite E in Hs; simpl in Hs;
      [injection Hs as -> ->; exact E|discriminate]. }
  assert (He' : compute_doppler range_velocity sat rx_freq tx_freq
                  (with_date obs LOS) = (Ok [end_rx; end_tx], with_date obs LOS)).
  { destruct (compute_doppler_cases range_velocity sat rx_freq tx_freq
                (with_date obs LOS)) as [(a & b & E)|[_ E]];
      rewrite E in He; simpl in He;
      [injection He as -> ->; exact E|discriminate]. }
  rewrite (compute_doppler_freqs_run range_velocity sat AOS LOS channels
             rx_freq tx_freq obs _ _ _ _ Hs' He') by lia.
  cbn [fst]. eexists. eexists. eexists. eexists. eexists.
  split; [reflexivity|].
  rewrite !nth_error_map, !py_range_nth_error by lia.
  rewrite !Z2Nat.id by lia. cbn [option_map].
  split; [reflexivity|]. split; [reflexivity|].
  rewrite inject_Z_plus. split; field; exact Hz.
Qed.

End FurtherEphemProperties.

Lemma compute_doppler_opposite_shifts_witness :
  0 < Sample.rx_freq /\ 0 < Sample.tx_freq
  /\ - C < Sample.range_velocity (with_date Sample.obs (1 # 144)) Sample.sat
  /\ Sample.range_velocity (with_date Sample.obs (1 # 144)) Sample.sat < C
  /\ exists rx_shift tx_shift : Q,
       compute_doppler Sample.range_velocity Sample.sat Sample.rx_freq
         Sample.tx_freq (with_date Sample.obs (1 # 144))
       = (Ok [rx_shift; tx_shift], with_date Sample.obs (1 # 144))
       /\ rx_shift < 0 /\ 0 < tx_shift.
Proof.
  assert (H1 : 0 < Sample.rx_freq) by reflexivity.
  assert (H2 : 0 < Sample.tx_freq) by reflexivity.
  assert (H3 : - C < Sample.range_velocity
                       (with_date Sample.obs (1 # 144)) Sample.sat)
    by reflexivity.
  assert (H4 : Sample.range_velocity
                 (with_date Sample.obs (1 # 144)) Sample.sat < C)
    by reflexivity.
  repeat (split; [assumption|]).
  destruct (compute_doppler_opposite_shifts Sample.range_velocity Sample.sat
              Sample.rx_freq Sample.tx_freq (with_date Sample.obs (1 # 144))
              H1 H2 H3 H4) as (rx_shift & tx_shift & E & Hp & _).
  exists rx_shift, tx_shift. split; [exact E|].
  apply Hp. reflexivity.
Defined.

Lemma compute_doppler_freqs_returns_witness :
  0%Z <> 1%Z
  /\ shifts_defined (Sample.range_velocity (with_date Sample.obs 0) Sample.sat)
  /\ shifts_defined
       (Sample.range_velocity (with_date Sample.obs (1 # 144)) Sample.sat)
  /\ compute_doppler_freqs Sample.range_velocity Sample.sat 0 (1 # 144) 0
       Sample.rx_freq Sample.tx_freq Sample.obs
     = (Ok [], with_date Sample.obs (1 # 144)).
Proof.
  assert (H1 : 0%Z <> 1%Z) by discriminate.
  assert (H2 : shifts_defined
                 (Sample.range_velocity (with_date Sample.obs 0) Sample.sat))
    by apply sample_shifts_defined.
  assert (H3 : shifts_defined
                 (Sample.range_velocity (with_date Sample.obs (1 # 144))
                    Sample.sat))
    by apply sample_shifts_defined.
  repeat (split; [assumption|]).
  destruct (compute_doppler_freqs_returns Sample.range_velocity Sample.sat
              0 (1 # 144) 0 Sample.rx_freq Sample.tx_freq Sample.obs H1 H2 H3)
    as (mems & E & _ & Hnil).
  rewrite E, Hnil by lia. reflexivity.
Defined.

Lemma compute_doppler_freqs_equally_spaced_witness :
  (0 <= 1)%Z /\ (1 + 1 < 5)%Z
  /\ fst (compute_doppler Sample.range_velocity Sample.sat
            Sample.rx_freq Sample.tx_freq (with_date Sample.obs 0))
     = Ok [Sample.shift_at Sample.rx_freq (-1 * -6000);
           Sample.shift_at Sample.tx_freq (-6000)]
  /\ fst (compute_doppler Sample.range_velocity Sample.sat
            Sample.rx_freq Sample.tx_freq (with_date Sample.obs (1 # 144)))
     = Ok [Sample.shift_at Sample.rx_freq (-1 * 6000);
           Sample.shift_at Sample.tx_freq 6000]
  /\ exists (mems : list channel) (r t r' t' : Q),
       fst (compute_doppler_freqs Sample.range_velocity Sample.sat 0 (1 # 144)
              5 Sample.rx_freq Sample.tx_freq Sample.obs) = Ok mems
       /\ nth_error mems (Z.to_nat 1) = Some (r, t)
       /\ nth_error mems (Z.to_nat (1 + 1)) = Some (r', t')
       /\ r' - r
          == (Sample.shift_at Sample.rx_freq (-1 * 6000)
              - Sample.shift_at Sample.rx_freq (-1 * -6000))
             / inject_Z (5 - 1) / 1000000.
Proof.
  assert (H1 : (0 <= 1)%Z) by lia.
  assert (H2 : (1 + 1 < 5)%Z) by lia.
  assert (H3 : fst (compute_doppler Sample.range_velocity Sample.sat
                      Sample.rx_freq Sample.tx_freq (with_date Sample.obs 0))
               = Ok [Sample.shift_at Sample.rx_freq (-1 * -6000);
                     Sample.shift_at Sample.tx_freq (-6000)])
    by reflexivity.
  assert (H4 : fst (compute_doppler Sample.range_velocity Sample.sat
                      Sample.rx_freq Sample.tx_freq
                      (with_date Sample.obs (1 # 144)))
               = Ok [Sample.shift_at Sample.rx_freq (-1 * 6000);
                     Sample.shift_at Sample.tx_freq 6000])
    by reflexivity.
  repeat (split; [assumption|]).
  destruct (compute_doppler_freqs_equally_spaced Sample.range_velocity
              Sample.sat 0 (1 # 144) 5 Sample.rx_freq Sample.tx_freq
              Sample.obs _ _ _ _ 1 H1 H2 H3 H4)
    as (mems & r & t & r' & t' & Hm & Hr & Hr' & Hd & _).
  exists mems, r, t, r', t'. repeat (split; [assumption|]). exact Hd.
Defined.

(** ** Lists: last elements and neighbours *)

Lemma last_map_nonempty {A B : Type} (f : A -> B) (l : list A) (d : A) (d' : B) :
  l <> [] -> last (map f l) d' = f (last l d).
Proof.
  induction l as [|x l IH]; intros Hne; [contradiction|].
  destruct l as [|y l]; [reflexivity|].
  change (last (map f (y :: l)) d' = f (last (y :: l) d)).
  apply IH. discriminate.
Qed.

Lemma Forall_all_but_last {A : Type} (P : A -> Prop) (l : list A) (d : A) :
  Forall P (removelast l) -> (l <> [] -> P (last l d)) -> Forall P l.
Proof.
  intros Hr Hl. destruct l as [|x l]; [constructor|].
  rewrite (app_removelast_last d (l := x :: l)) by discriminate.
  apply Forall_app. split; [exact Hr|].
  constructor; [apply Hl; discriminate|constructor].
Qed.

Lemma neighbours_snoc (l : list Z) (x d : Z) :
  (forall (k : nat) (a b : Z),
      nth_error l k = Some a -> nth_error l (S k) = Some b -> a <> b) ->
  (l <> [] -> last l d <> x) ->
  forall (k : nat) (a b : Z),
    nth_error (l ++ [x]) k = Some a -> nth_error (l ++ [x]) (S k) = Some b ->
    a <> b.
Proof.
  induction l as [|y l IH]; intros Hadj Hlast k a b Ha Hb.
  - destruct k; simpl in Hb; discriminate.
  - destruct k as [|k].
    + simpl in Ha. injection Ha as <-.
      destruct l as [|z l].
      * simpl in Hb. injection Hb as <-. apply Hlast. discriminate.
      * simpl in Hb. injection Hb as <-.
        apply (Hadj 0%nat y z); reflexivity.
    + simpl in Ha, Hb. apply (IH) with (k := k); try assumption.
      * intros k' a' b' Ha' Hb'. apply (Hadj (S k') a' b'); assumption.
      * intros Hne. destruct l as [|z l]; [contradiction|].
        apply Hlast. discriminate.
Qed.

Lemma best_channel_lower (freq : Q) (mems : list channel) :
  (-1 <= best_channel freq mems)%Z.
Proof.
  unfold best_channel.
  destruct (best_channel_prefix freq mems (length mems))
    as [[_ ->]|(Hb & _)]; simpl; lia.
Qed.

Section SwitchProperties.

Variable range_velocity : Observer -> EarthSatellite -> Q.

(** What the recorded switches look like after the seconds [0 .. n-1]. *)
Lemma shift_times_loop_channels (sat : EarthSatellite) (AOS : Q)
    (mems : list channel) (rx_freq tx_freq : Q) (obs : Observer) (n : nat) :
  forall (curr : Z) (sw : list switch) (o : Observer),
    shift_times_loop range_velocity sat AOS mems rx_freq tx_freq
      (Z.of_nat n) obs = (Ok (curr, sw), o) ->
    (-1 <= curr)%Z
    /\ curr = last (map sw_mem sw) (-1)%Z
    /\ Forall (fun e => nearest_channel (sw_rx e) mems (sw_mem e)) sw
    /\ Forall (fun e => (sw_mem e < Z.of_nat (length mems) - 1)%Z)
         (removelast sw)
    /\ (forall (k : nat) (a b : Z),
          nth_error (map sw_mem sw) k = Some a ->
          nth_error (map sw_mem sw) (S k) = Some b -> a <> b).
Proof.
  induction n as [|n IH]; intros curr sw o Hl.
  - injection Hl as <- <- <-. cbn.
    repeat split; try constructor; try lia.
    intros [|k] a b Ha; discriminate.
  - replace (Z.of_nat (S n)) with (Z.of_nat n + 1)%Z in Hl by lia.
    destruct (shift_times_loop range_velocity sat AOS mems rx_freq tx_freq
                (Z.of_nat n) obs) as [[[curr0 sw0]|e] o0] eqn:E0.
    2:{ rewrite shift_times_loop_succ, E0 in Hl by lia. discriminate. }
    destruct (IH _ _ _ eq_refl) as (Hlo & Hcurr & Hnear & Hinit & Hadj).
    destruct (shift_times_loop_inv range_velocity sat AOS mems rx_freq tx_freq
                obs n _ _ E0) as [Hp _].
    destruct (shift_times_loop_step range_velocity sat AOS mems rx_freq tx_freq
                (Z.of_nat n) curr0 sw0 o0 obs (Nat2Z.is_nonneg n) Hp E0)
      as [(a & b & _ & E1)|[_ E1]]; rewrite E1 in Hl; [|discriminate].
    destruct ((curr0 <? Z.of_nat (length mems) - 1)%Z
              && negb (curr0 =? best_channel (shifted rx_freq a) mems)%Z)
      eqn:G; injection Hl as <- <- <-.
    + apply andb_prop in G. destruct G as [G1 G2].
      apply Z.ltb_lt in G1. apply negb_true_iff, Z.eqb_neq in G2.
      assert (Hne : mems <> []).
      { destruct mems; [simpl in G1; lia|discriminate]. }
      assert (Hbest := best_channel_nearest (shifted rx_freq a) mems Hne).
      split; [apply best_channel_lower|].
      split; [rewrite map_app; cbn [map]; now rewrite last_last|].
      split; [apply Forall_app; split;
              [exact Hnear|constructor; [exact Hbest|constructor]]|].
      split.
      * rewrite removelast_last.
        apply (Forall_all_but_last _ sw0
                 (mkSwitch (-1) 0 0 0)); [exact Hinit|].
        intros Hsw.
        rewrite <- (last_map_nonempty sw_mem sw0 _ (-1)%Z Hsw), <- Hcurr.
        exact G1.
      * rewrite map_app. cbn [map].
        apply (neighbours_snoc _ _ (-1)%Z); [exact Hadj|].
        intros _. rewrite <- Hcurr. exact G2.
    + repeat split; assumption.
Qed.

(** X10: every entry [compute_shift_times] returns names a valid channel
    index, that of the channel nearest (lowest index first) to the
    receive frequency recorded in the entry; two entries in a row never
    name the same channel; and only the final entry can name the last
    stored channel. *)
Theorem compute_shift_times_entries (sat : EarthSatellite) (AOS LOS : Q)
    (mems : list channel) (rx_freq tx_freq : Q) (obs : Observer)
    (switch_times : list switch) :
  fst (compute_shift_times range_velocity sat AOS LOS mems
         rx_freq tx_freq obs) = Ok switch_times ->
  Forall (fun e => (0 <= sw_mem e < Z.of_nat (length mems))%Z
                   /\ sw_mem e = best_channel (sw_rx e) mems
                   /\ nearest_channel (sw_rx e) mems (sw_mem e))
    switch_times
  /\ (forall (k : nat) (e e' : switch),
        nth_error switch_times k = Some e ->
        nth_error switch_times (S k) = Some e' ->
        sw_mem e <> sw_mem e')
  /\ Forall (fun e => (sw_mem e < Z.of_nat (length mems) - 1)%Z)
       (removelast switch_times).
Proof.
  intros Hres. rewrite compute_shift_times_run in Hres.
  destruct (shift_times_loop range_velocity sat AOS mems rx_freq tx_freq
              (Z.of_nat (Z.to_nat (pass_intervals AOS LOS))) obs)
    as [[[curr sw]|e] o] eqn:E; [|discriminate].
  injection Hres as <-. cbn [snd].
  destruct (shift_times_loop_channels sat AOS mems rx_freq tx_freq obs
              _ _ _ _ E) as (_ & _ & Hnear & Hinit & Hadj).
  split; [|split; [|exact Hinit]].
  - eapply Forall_impl; [|exact Hnear]. intros e He. cbv beta in He.
    split; [exact (proj1 He)|]. split; [|exact He].
    apply nearest_channel_is_best. exact He.
  - intros k e e' He He'.
    apply (Hadj k); rewrite nth_error_map; [now rewrite He|now rewrite He'].
Qed.

Lemma shift_times_loop_prefix_ok (sat : EarthSatellite) (AOS : Q)
    (mems : list channel) (rx_freq tx_freq : Q) (obs : Observer)
    (n k : nat) (st : Z * list switch) (o : Observer) :
  shift_times_loop range_velocity sat AOS mems rx_freq tx_freq
    (Z.of_nat (n + k)) obs = (Ok st, o) ->
  exists (st' : Z * list switch) (o' : Observer),
    shift_times_loop range_velocity sat AOS mems rx_freq tx_freq
      (Z.of_nat n) obs = (Ok st', o').
Proof.
  revert st o. induction k as [|k IH]; intros st o H.
  - rewrite Nat.add_0_r in H. eexists. eexists. exact H.
  - replace (Z.of_nat (n + S k)) with (Z.of_nat (n + k) + 1)%Z in H by lia.
    rewrite shift_times_loop_succ in H by lia.
    destruct (shift_times_loop range_velocity sat AOS mems rx_freq tx_freq
                (Z.of_nat (n + k)) obs) as [[st0|e] o0] eqn:E0;
      [|discriminate].
    exact (IH _ _ eq_refl).
Qed.

(** X11: [compute_shift_times] records nothing when there is no channel to
    choose from, and nothing when the pass is shorter than [SECOND], the
    constant of the code (the observer is then left untouched); with no
    channel it returns the empty list whenever both shifts are defined at
    every second the loop samples. *)
Theorem compute_shift_times_nothing_to_record (sat : EarthSatellite)
    (AOS LOS : Q) (mems : list channel) (rx_freq tx_freq : Q)
    (obs : Observer) :
  (forall switch_times : list switch,
      fst (compute_shift_times range_velocity sat AOS LOS []
             rx_freq tx_freq obs) = Ok switch_times ->
      switch_times = [])
  /\ ((forall i : Z, (0 <= i < Qfloor ((LOS - AOS) / SECOND))%Z ->
         shifts_defined
           (range_velocity (with_date obs (second_of_pass AOS i)) sat)) ->
      fst (compute_shift_times range_velocity sat AOS LOS []
             rx_freq tx_freq obs) = Ok [])
  /\ (LOS - AOS < SECOND ->
      compute_shift_times range_velocity sat AOS LOS mems rx_freq tx_freq obs
      = (Ok [], obs)).
Proof.
  assert (Hnil : forall switch_times : list switch,
             fst (compute_shift_times range_velocity sat AOS LOS []
                    rx_freq tx_freq obs) = Ok switch_times ->
             switch_times = []).
  { intros switch_times Hres. rewrite compute_shift_times_run in Hres.
    destruct (shift_times_loop range_velocity sat AOS [] rx_freq tx_freq
                (Z.of_nat (Z.to_nat (pass_intervals AOS LOS))) obs)
      as [[[curr sw]|e] o] eqn:E; [|discriminate].
    injection Hres as <-. cbn [snd].
    destruct (shift_times_loop_channels sat AOS [] rx_freq tx_freq obs
                _ _ _ _ E) as (_ & _ & Hnear & _).
    destruct sw as [|e sw]; [reflexivity|].
    inversion Hnear as [|? ? [Hr _] _]. simpl in Hr. lia. }
  split; [exact Hnil|]. split.
  - intros Hv. rewrite <- pass_intervals_floor in Hv.
    destruct (shift_times_loop_total range_velocity sat AOS [] rx_freq tx_freq
                obs (Z.to_nat (pass_intervals AOS LOS)))
      as (st & o & E); [intros i Hi; apply Hv; lia|].
    assert (Hres : fst (compute_shift_times range_velocity sat AOS LOS []
                          rx_freq tx_freq obs) = Ok (snd st))
      by (rewrite compute_shift_times_run, E; reflexivity).
    now rewrite Hres, (Hnil _ Hres).
  - intros Hn. rewrite compute_shift_times_run.
    assert (H := pass_intervals_short AOS LOS Hn).
    replace (Z.to_nat (pass_intervals AOS LOS)) with 0%nat by lia.
    reflexivity.
Qed.

(** X12: with at least one channel and a pass of at least one second, the
    list [compute_shift_times] returns starts with an entry for second 0,
    whose date is AOS. *)
Theorem compute_shift_times_first_second (sat : EarthSatellite)
    (AOS LOS : Q) (mems : list channel) (rx_freq tx_freq : Q)
    (obs : Observer) (switch_times : list switch) :
  mems <> [] ->
  (1 <= Qfloor ((LOS - AOS) * 86400))%Z ->
  fst (compute_shift_times range_velocity sat AOS LOS mems
         rx_freq tx_freq obs) = Ok switch_times ->
  exists (e : switch) (rest : list switch),
    switch_times = e :: rest
    /\ sw_time e = AOS + inject_Z 0 * SECOND
    /\ sw_time e == AOS
    /\ sw_mem e = best_channel (sw_rx e) mems.
Proof.
  intros Hne Hn Hres. rewrite compute_shift_times_run in Hres.
  assert (Hn' : (1 <= pass_intervals AOS LOS)%Z).
  { destruct (whole_seconds_sampled AOS LOS 0) as [_ H]; lia. }
  destruct (shift_times_loop range_velocity sat AOS mems rx_freq tx_freq
              (Z.of_nat (Z.to_nat (pass_intervals AOS LOS))) obs)
    as [[[curr sw]|e] o] eqn:E; [|discriminate].
  injection Hres as <-. cbn [snd].
  replace (Z.to_nat (pass_intervals AOS LOS))
    with (1 + (Z.to_nat (pass_intervals AOS LOS) - 1))%nat in E by lia.
  destruct (shift_times_loop_prefix_ok sat AOS mems rx_freq tx_freq obs
              _ _ _ _ E) as ([curr1 sw1] & o1 & E1).
  destruct (shift_times_loop_extends range_velocity sat AOS mems rx_freq
              tx_freq obs _ _ _ _ _ E1 _ _ _ E) as [rest ->].
  assert (E0 : shift_times_loop range_velocity sat AOS mems rx_freq tx_freq
                 0 obs = (Ok ((-1)%Z, []), obs)) by reflexivity.
  destruct (shift_times_loop_step range_velocity sat AOS mems rx_freq tx_freq
              0 (-1) [] obs obs (Z.le_refl 0) (conj eq_refl (conj eq_refl eq_refl))
              E0) as [(a & b & _ & E2)|[_ E2]];
    change (0 + 1)%Z with (Z.of_nat 1) in E2; rewrite E2 in E1;
    [|discriminate].
  destruct (best_channel_nearest (shifted rx_freq a) mems Hne) as [Hb _].
  replace (-1 <? Z.of_nat (length mems) - 1)%Z with true in E1
    by (symmetry; apply Z.ltb_lt; lia).
  replace (-1 =? best_channel (shifted rx_freq a) mems)%Z with false in E1
    by (symmetry; apply Z.eqb_neq; lia).
  injection E1 as <- <- <-.
  eexists. eexists. split; [reflexivity|].
  split; [reflexivity|]. split; [|reflexivity].
  cbn [switch_entry sw_time]. unfold second_of_pass.
  change (inject_Z 0) with 0. ring.
Qed.

End SwitchProperties.

Lemma compute_shift_times_entries_witness :
  exists switch_times : list switch,
    fst (compute_shift_times Sample.range_velocity Sample.sat 0 Sample.LOS3
           Demo.descending_mems Sample.rx_freq Sample.tx_freq Sample.obs)
    = Ok switch_times
    /\ map sw_mem switch_times = [0%Z; 1%Z]
    /\ Forall (fun e => (sw_mem e < Z.of_nat (length Demo.descending_mems) - 1)%Z)
         (removelast switch_times).
Proof.
  eexists. eexists; [vm_compute; reflexivity|].
  split; [reflexivity|].
  refine (proj2 (proj2 (compute_shift_times_entries Sample.range_velocity
                          Sample.sat 0 Sample.LOS3 Demo.descending_mems
                          Sample.rx_freq Sample.tx_freq Sample.obs _ _))).
  vm_compute. reflexivity.
Defined.

Lemma compute_shift_times_nothing_to_record_witness :
  (forall i : Z, (0 <= i < Qfloor ((Sample.LOS3 - 0) / SECOND))%Z ->
     shifts_defined
       (Sample.range_velocity (with_date Sample.obs (second_of_pass 0 i))
          Sample.sat))
  /\ fst (compute_shift_times Sample.range_velocity Sample.sat 0 Sample.LOS3 []
            Sample.rx_freq Sample.tx_freq Sample.obs) = Ok []
  /\ (1 # 172800) - 0 < SECOND
  /\ compute_shift_times Sample.range_velocity Sample.sat 0 (1 # 172800)
       Sample.ascending_mems Sample.rx_freq Sample.tx_freq Sample.obs
     = (Ok [], Sample.obs).
Proof.
  assert (H : forall i : Z, (0 <= i < Qfloor ((Sample.LOS3 - 0) / SECOND))%Z ->
                shifts_defined
                  (Sample.range_velocity
                     (with_date Sample.obs (second_of_pass 0 i)) Sample.sat))
    by (intros i _; apply sample_shifts_defined).
  assert (H2 : (1 # 172800) - 0 < SECOND) by reflexivity.
  split; [exact H|].
  split; [exact (proj1 (proj2 (compute_shift_times_nothing_to_record
                                 Sample.range_velocity Sample.sat 0 Sample.LOS3
                                 Sample.ascending_mems Sample.rx_freq
                                 Sample.tx_freq Sample.obs)) H)|].
  split; [exact H2|].
  exact (proj2 (proj2 (compute_shift_times_nothing_to_record
                         Sample.range_velocity Sample.sat 0 (1 # 172800)
                         Sample.ascending_mems Sample.rx_freq Sample.tx_freq
                         Sample.obs)) H2).
Defined.

Lemma compute_shift_times_first_second_witness :
  Demo.descending_mems <> []
  /\ (1 <= Qfloor ((Sample.LOS3 - 0) * 86400))%Z
  /\ exists switch_times : list switch,
       fst (compute_shift_times Sample.range_velocity Sample.sat 0 Sample.LOS3
              Demo.descending_mems Sample.rx_freq Sample.tx_freq Sample.obs)
       = Ok switch_times
       /\ exists (e : switch) (rest : list switch),
            switch_times = e :: rest /\ sw_time e == 0.
Proof.
  assert (H1 : Demo.descending_mems <> []) by discriminate.
  assert (H2 : (1 <= Qfloor ((Sample.LOS3 - 0) * 86400))%Z)
    by (vm_compute; discriminate).
  split; [exact H1|]. split; [exact H2|].
  eexists. eexists; [vm_compute; reflexivity|].
  destruct (compute_shift_times_first_second Sample.range_velocity Sample.sat
              0 Sample.LOS3 Demo.descending_mems Sample.rx_freq Sample.tx_freq
              Sample.obs _ H1 H2 eq_refl) as (e & rest & He & _ & Ht & _).
  exists e, rest. split; assumption.
Defined.

(** ** [next_high_pass] *)

Section FurtherPassProperties.

Variable next_pass_of : Observer -> EarthSatellite -> result Pass.

(** X13: with [limit <= 0] or [min_elevation <= 0] the loop of
    [next_high_pass] is never entered: whatever the fuel, [None] is
    returned, [next_pass] is not called and the observer is left as it
    was. *)
Theorem next_high_pass_never_enters (sat : EarthSatellite)
    (min_elevation : Q) (limit : Z) (obs : Observer) (fuel : nat) :
  (limit <= 0)%Z \/ min_elevation <= 0 ->
  next_high_pass_loop next_pass_of fuel sat min_elevation
    (mkHp 0 limit None) obs
  = Some (Ok (mkHp 0 limit None), obs)
  /\ next_high_pass next_pass_of fuel sat min_elevation limit obs
     = Some (None, obs).
Proof.
  intros H.
  assert (Hc : hp_continue min_elevation (mkHp 0 limit None) = false).
  { unfold hp_continue. cbn [hp_elevation hp_limit].
    destruct H as [H|H].
    - replace (0 <? limit)%Z with false by (symmetry; apply Z.ltb_ge; exact H).
      apply andb_false_r.
    - destruct (Qlt_le_dec 0 min_elevation) as [Hlt|_]; [|reflexivity].
      exfalso. exact (Qlt_not_le _ _ Hlt H). }
  split; [now apply next_high_pass_loop_exit|].
  unfold next_high_pass.
  rewrite next_high_pass_loop_exit by exact Hc.
  cbn [rbind]. unfold next_high_pass_return. cbn [hp_limit hp_next_pass].
  destruct (0 <? limit)%Z; reflexivity.
Qed.

Lemma search_passes_soonest (sat : EarthSatellite) (min_elevation : Q)
    (fuel : nat) :
  forall (obs obs' : Observer) (p : Pass),
    search_passes next_pass_of fuel sat min_elevation obs = Some (Some p, obs') ->
    exists k : nat,
      nth_error (passes_ahead next_pass_of fuel sat obs) k = Some p
      /\ min_elevation <= elevation_of p
      /\ (forall (j : nat) (q : Pass), (j < k)%nat ->
          nth_error (passes_ahead next_pass_of fuel sat obs) j = Some q ->
          elevation_of q < min_elevation)
      /\ date obs' = set_time p.
Proof.
  induction fuel as [|fuel IH]; intros obs obs' p H; [discriminate|].
  cbn [search_passes passes_ahead] in *.
  destruct (next_pass_of obs sat) as [q|e]; [|discriminate].
  destruct (Qle_bool min_elevation (elevation_of q)) eqn:Hm.
  - injection H as <- <-. exists 0%nat.
    split; [reflexivity|]. split; [now apply Qle_bool_iff|].
    split; [intros j q' Hj; lia|reflexivity].
  - destruct (IH _ _ _ H) as (k & Hk & Hp & Hbefore & Hd).
    exists (S k). split; [exact Hk|]. split; [exact Hp|].
    split; [|exact Hd].
    intros [|j] q' Hj Hq.
    + injection Hq as <-. apply Qnot_le_lt. intros Hle.
      apply Qle_bool_iff in Hle. congruence.
    + apply (Hbefore j q'); [lia|exact Hq].
Qed.

(** X14: for [limit > 0] and [min_elevation > 0], the pass
    [next_high_pass] returns is the soonest pass ahead of the observer
    that reaches [min_elevation]: every pass before it is below
    [min_elevation], and the observer's date is left at the end of the
    returned pass. *)
Theorem next_high_pass_soonest (sat : EarthSatellite) (min_elevation : Q)
    (limit : Z) (obs obs' : Observer) (fuel : nat) (p : Pass) :
  (0 < limit)%Z -> 0 < min_elevation ->
  next_high_pass next_pass_of fuel sat min_elevation limit obs
  = Some (Some p, obs') ->
  exists k : nat,
    nth_error (passes_ahead next_pass_of fuel sat obs) k = Some p
    /\ min_elevation <= elevation_of p
    /\ (forall (j : nat) (q : Pass), (j < k)%nat ->
        nth_error (passes_ahead next_pass_of fuel sat obs) j = Some q ->
        elevation_of q < min_elevation)
    /\ date obs' = set_time p.
Proof.
  intros Hl Hm H. unfold next_high_pass in H.
  rewrite next_high_pass_loop_search in H
    by (cbn [hp_limit hp_elevation]; assumption).
  exact (search_passes_soonest _ _ _ _ _ _ H).
Qed.

End FurtherPassProperties.

Lemma next_high_pass_never_enters_witness :
  ((0 <= 0)%Z \/ 10 <= 0)
  /\ next_high_pass Sample.next_pass_of 7 Sample.sat 10 0 Sample.obs
     = Some (None, Sample.obs).
Proof.
  assert (H : (0 <= 0)%Z \/ 10 <= 0) by (left; lia).
  split; [exact H|].
  exact (proj2 (next_high_pass_never_enters Sample.next_pass_of Sample.sat
                  10 0 Sample.obs 7 H)).
Defined.

Lemma next_high_pass_soonest_witness :
  (0 < 2)%Z /\ 0 < 10
  /\ exists (p : Pass) (obs' : Observer),
       next_high_pass Sample.next_pass_of 3 Sample.sat 10 2 Sample.obs
       = Some (Some p, obs')
       /\ nth_error (passes_ahead Sample.next_pass_of 3 Sample.sat Sample.obs)
            2 = Some p
       /\ date obs' = set_time p.
Proof.
  assert (H1 : (0 < 2)%Z) by lia.
  assert (H2 : 0 < 10) by reflexivity.
  split; [exact H1|]. split; [exact H2|].
  eexists. eexists. split; [reflexivity|]. split; [reflexivity|].
  destruct (next_high_pass_soonest Sample.next_pass_of Sample.sat 10 2
              Sample.obs _ 3 _ H1 H2 eq_refl) as (k & _ & _ & _ & Hd).
  exact Hd.
Defined.

(** ** The averaging step of [main], for sets of any length *)

Lemma accumulate_nth_any (mem_set average_memory : list channel) (k : nat) :
  (k < length average_memory)%nat ->
  fst (nth k (accumulate mem_set average_memory) (0, 0))
  == fst (nth k average_memory (0, 0)) + fst (nth k mem_set (0, 0))
  /\ snd (nth k (accumulate mem_set average_memory) (0, 0))
     == snd (nth k average_memory (0, 0)) + snd (nth k mem_set (0, 0)).
Proof.
  revert average_memory k.
  induction mem_set as [|m ms IH]; intros avg k Hk.
  - replace (accumulate [] avg) with avg by (destruct avg; reflexivity).
    replace (nth k [] ((0, 0) : channel)) with ((0, 0) : channel)
      by (destruct k; reflexivity).
    cbn [fst snd]. split; ring.
  - destruct avg as [|a avg]; [simpl in Hk; lia|].
    destruct k as [|k]; cbn [accumulate nth fst snd].
    + split; reflexivity.
    + apply IH. simpl in Hk. lia.
Qed.

Lemma accumulate_all_nth_any (memory_sets : list (list channel))
    (average_memory : list channel) (k : nat) :
  (k < length average_memory)%nat ->
  fst (nth k (fold_left
                (fun average_memory mem_set => accumulate mem_set average_memory)
                memory_sets average_memory) (0, 0))
  == fst (nth k average_memory (0, 0)) + column_sum fst k memory_sets
  /\ snd (nth k (fold_left
                   (fun average_memory mem_set =>
                      accumulate mem_set average_memory)
                   memory_sets average_memory) (0, 0))
     == snd (nth k average_memory (0, 0)) + column_sum snd k memory_sets.
Proof.
  revert average_memory.
  induction memory_sets as [|s sets IH]; intros avg Hk;
    unfold column_sum; cbn [fold_left fold_right].
  - split; ring.
  - destruct (IH (accumulate s avg)) as [Hf Hs];
      [now rewrite accumulate_length|].
    unfold column_sum in Hf, Hs. rewrite Hf, Hs.
    destruct (accumulate_nth_any s avg k Hk) as [Hf' Hs'].
    rewrite Hf', Hs'. split; ring.
Qed.

(** X15: for every non-zero [total_tests], whatever the lengths of the
    memory sets, the averaging step returns [max(channels, 0)] pairs; the
    pair at index [k] holds the sums of the receive and of the transmit
    entries at index [k], divided by [total_tests], where a set too short
    to have an entry [k] adds nothing ([zip] stops at the shorter list)
    and entries of a set past [channels] are ignored. *)
Theorem main_average_memory_any_lengths (channels total_tests : Z)
    (memory_sets : list (list channel)) :
  total_tests <> 0%Z ->
  exists average_memory : list channel,
    main_average_memory channels total_tests memory_sets = Ok average_memory
    /\ length average_memory = Z.to_nat channels
    /\ forall k : nat, (k < Z.to_nat channels)%nat ->
       exists r t : Q,
         nth_error average_memory k = Some (r, t)
         /\ r == column_sum fst k memory_sets / inject_Z total_tests
         /\ t == column_sum snd k memory_sets / inject_Z total_tests.
Proof.
  intros Ht. unfold main_average_memory.
  rewrite divide_all_ok by exact Ht.
  eexists. split; [reflexivity|].
  assert (Hz : length (map (fun _ : Z => ((0, 0) : channel)) (py_range channels))
               = Z.to_nat channels)
    by now rewrite length_map, py_range_length.
  split; [now rewrite length_map, accumulate_all_length|].
  intros k Hk.
  rewrite nth_error_map.
  rewrite (nth_error_nth' _ (0, 0)) by (rewrite accumulate_all_length; lia).
  cbn [option_map]. eexists. eexists. split; [reflexivity|].
  destruct (accumulate_all_nth_any memory_sets
              (map (fun _ : Z => ((0, 0) : channel)) (py_range channels)) k)
    as [Hf Hs]; [lia|].
  rewrite zero_rows_nth in Hf, Hs. cbn [fst snd] in Hf, Hs.
  assert (Hnz : ~ inject_Z total_tests == 0) by now apply inject_Z_nonzero.
  split.
  - rewrite Hf. field. exact Hnz.
  - rewrite Hs. field. exact Hnz.
Qed.

(** X16: with [total_tests = 0] the averaging step raises
    [ZeroDivisionError] as soon as there is a channel to divide
    ([channels >= 1]); with no channel ([channels <= 0]) it returns the
    empty list whatever [total_tests] is. *)
Theorem main_average_memory_zero_tests (channels total_tests : Z)
    (memory_sets : list (list channel)) :
  ((1 <= channels)%Z ->
   main_average_memory channels 0 memory_sets = Raise ZeroDivisionError)
  /\ ((channels <= 0)%Z ->
      main_average_memory channels total_tests memory_sets = Ok []).
Proof.
  unfold main_average_memory. split; intros Hc.
  - destruct (fold_left
                (fun average_memory mem_set => accumulate mem_set average_memory)
                memory_sets
                (map (fun _ : Z => ((0, 0) : channel)) (py_range channels)))
      as [|m rest] eqn:E.
    + apply (f_equal (@length _)) in E.
      rewrite accumulate_all_length, length_map, py_range_length in E.
      simpl in E. lia.
    + reflexivity.
  - rewrite py_range_nonpos by exact Hc. cbn [map].
    assert (E : fold_left
                  (fun average_memory mem_set =>
                     accumulate mem_set average_memory)
                  memory_sets ([] : list channel) = []).
    { apply length_zero_iff_nil. now rewrite accumulate_all_length. }
    rewrite E. reflexivity.
Qed.

Lemma main_average_memory_any_lengths_witness :
  2%Z <> 0%Z
  /\ exists average_memory : list channel,
       main_average_memory 3 2
         [[(3, 30); (5, 50)]; [(1, 10); (1, 10); (4, 40); (9, 90)]]
       = Ok average_memory
       /\ exists r0 r1 r2 : channel,
            average_memory = [r0; r1; r2]
            /\ fst r0 == 2 /\ fst r1 == 3 /\ fst r2 == 2.
Proof.
  assert (H : 2%Z <> 0%Z) by discriminate.
  split; [exact H|].
  destruct (main_average_memory_any_lengths 3 2
              [[(3, 30); (5, 50)]; [(1, 10); (1, 10); (4, 40); (9, 90)]] H)
    as (average_memory & Ha & Hl & Hk).
  exists average_memory. split; [exact Ha|].
  injection Ha as <-.
  eexists. eexists. eexists. split; [reflexivity|].
  repeat split; reflexivity.
Defined.

Lemma main_average_memory_zero_tests_witness :
  (1 <= 2)%Z
  /\ main_average_memory 2 0 Sample.memory_sets = Raise ZeroDivisionError.
Proof.
  assert (H : (1 <= 2)%Z) by lia.
  split; [exact H|].
  exact (proj1 (main_average_memory_zero_tests 2 0 Sample.memory_sets) H).
Defined.

(** ** Collecting the memory sets in [main] *)

Section CollectProperties.

Variable range_velocity : Observer -> EarthSatellite -> Q.
Variable next_pass_of : Observer -> EarthSatellite -> result Pass.

Lemma compute_doppler_freqs_ok_inv (sat : EarthSatellite) (AOS LOS : Q)
    (channels : Z) (rx_freq tx_freq : Q) (obs o : Observer)
    (mems : list channel) :
  compute_doppler_freqs range_velocity sat AOS LOS channels rx_freq tx_freq obs
  = (Ok mems, o) ->
  channels <> 1%Z /\ length mems = Z.to_nat channels.
Proof.
  intros H.
  destruct (compute_doppler_cases range_velocity sat rx_freq tx_freq
              (with_date obs AOS)) as [(a & b & Ea)|[_ Ea]].
  2:{ unfold compute_doppler_freqs, bind, set_date in H.
      rewrite Ea in H. discriminate. }
  destruct (compute_doppler_cases range_velocity sat rx_freq tx_freq
              (with_date obs LOS)) as [(a' & b' & Eb)|[_ Eb]].
  2:{ unfold compute_doppler_freqs, bind, set_date in H.
      rewrite Ea in H. cbn [lift unpack2] in H.
      change (with_date (with_date obs AOS) LOS) with (with_date obs LOS) in H.
      rewrite Eb in H. discriminate. }
  destruct (Z.eq_dec channels 1) as [->|Hc].
  - unfold compute_doppler_freqs, bind, set_date in H.
    rewrite Ea in H. cbn [lift unpack2] in H.
    change (with_date (with_date obs AOS) LOS) with (with_date obs LOS) in H.
    rewrite Eb in H. discriminate.
  - rewrite (compute_doppler_freqs_run range_velocity sat AOS LOS channels
               rx_freq tx_freq obs _ _ _ _ Ea Eb Hc) in H.
    injection H as <- _. split; [exact Hc|].
    now rewrite length_map, py_range_length.
Qed.

(** When the loop ends without [break], every round has added one set. *)
Lemma main_collect_loop_complete (fuel : nat) (sat : EarthSatellite)
    (channels : Z) (downlink uplink : Q) (ns : list Z) :
  forall (memory_sets memory_sets' : list (list channel))
         (next_pass next_pass' : option (option Pass)) (my_loc o : Observer),
    main_collect_loop range_velocity next_pass_of fuel ns sat channels
      downlink uplink memory_sets next_pass my_loc
    = Some (Ok (memory_sets', next_pass'), o) ->
    next_pass' <> Some None ->
    exists added : list (list channel),
      memory_sets' = memory_sets ++ added
      /\ length added = length ns
      /\ Forall (fun mem_set => length mem_set = Z.to_nat channels) added
      /\ (ns = [] -> next_pass' = next_pass)
      /\ (ns <> [] -> channels <> 1%Z /\ exists p, next_pass' = Some (Some p)).
Proof.
  induction ns as [|n ns IH];
    intros memory_sets memory_sets' next_pass next_pass' my_loc o H Hnp.
  - injection H as <- <- <-. exists [].
    rewrite app_nil_r.
    split; [reflexivity|]. split; [reflexivity|]. split; [constructor|].
    split; [reflexivity|]. intros Hne. contradiction.
  - cbn [main_collect_loop] in H.
    destruct (next_high_pass next_pass_of fuel sat main_min_elevation
                default_limit my_loc) as [[[p|] o1]|]; try discriminate.
    2:{ injection H as <- <- <-. contradiction. }
    destruct (compute_doppler_freqs range_velocity sat (rise_time p)
                (set_time p) channels downlink uplink o1)
      as [[mems|e] o2] eqn:Ec; [|discriminate].
    destruct (compute_doppler_freqs_ok_inv _ _ _ _ _ _ _ _ _ Ec) as [Hc Hl].
    destruct (IH _ _ _ _ _ _ H Hnp) as (added & Hms & Hlen & Hall & Hnil & Hcons).
    exists (mems :: added).
    split; [rewrite Hms, <- app_assoc; reflexivity|].
    split; [simpl; now rewrite Hlen|].
    split; [constructor; assumption|].
    split; [discriminate|]. intros _. split; [exact Hc|].
    destruct ns as [|n' ns].
    + exists p. now apply Hnil.
    + apply Hcons. discriminate.
Qed.

(** X17: in the run of [main] for its first transmitter ([next_pass] is
    still unbound), the averaging step is reached only when
    [total_tests >= 1], exactly [total_tests] memory sets have been
    collected, [channels] is not 1 and every set has [max(channels, 0)]
    entries; the averaging step then does not raise: it returns
    [max(channels, 0)] pairs, the pair at index [k] holding the arithmetic
    means of the receive and of the transmit entries at index [k] of the
    collected sets. *)
Theorem main_collect_then_average (fuel : nat) (total_tests : Z)
    (sat : EarthSatellite) (channels : Z) (downlink uplink : Q)
    (my_loc o : Observer) (memory_sets : list (list channel)) (p : Pass) :
  main_collect range_velocity next_pass_of fuel total_tests sat channels
    downlink uplink None my_loc
  = Some (Ok (Proceed memory_sets p), o) ->
  (1 <= total_tests)%Z
  /\ Z.of_nat (length memory_sets) = total_tests
  /\ channels <> 1%Z
  /\ Forall (fun mem_set => length mem_set = Z.to_nat channels) memory_sets
  /\ exists average_memory : list channel,
       main_average_memory channels total_tests memory_sets = Ok average_memory
       /\ length average_memory = Z.to_nat channels
       /\ forall k : nat, (k < Z.to_nat channels)%nat ->
          exists r t : Q,
            nth_error average_memory k = Some (r, t)
            /\ r == column_mean fst k memory_sets
            /\ t == column_mean snd k memory_sets.
Proof.
  intros H. unfold main_collect in H.
  destruct (main_collect_loop range_velocity next_pass_of fuel
              (py_range total_tests) sat channels downlink uplink [] None
              my_loc) as [[[[ms np]|e] o']|] eqn:E; try discriminate.
  destruct np as [[q|]|]; try discriminate.
  injection H as <- <- <-.
  destruct (main_collect_loop_complete _ _ _ _ _ _ _ _ _ _ _ _ E)
    as (added & Hms & Hlen & Hall & Hnil & Hcons); [discriminate|].
  cbn [app] in Hms. subst ms.
  rewrite py_range_length in Hlen.
  assert (Hne : py_range total_tests <> []).
  { intros Hr. specialize (Hnil Hr). discriminate. }
  assert (Hpos : (1 <= total_tests)%Z).
  { destruct (Z_lt_le_dec total_tests 1) as [Hlt|Hge]; [|exact Hge].
    exfalso. apply Hne. apply py_range_nonpos. lia. }
  assert (Hcount : Z.of_nat (length added) = total_tests) by lia.
  split; [exact Hpos|]. split; [exact Hcount|].
  split; [exact (proj1 (Hcons Hne))|]. split; [exact Hall|].
  unfold main_average_memory.
  rewrite divide_all_ok by lia.
  eexists. split; [reflexivity|].
  assert (Hz : length (map (fun _ : Z => ((0, 0) : channel)) (py_range channels))
               = Z.to_nat channels)
    by now rewrite length_map, py_range_length.
  split; [now rewrite length_map, accumulate_all_length|].
  intros k Hk.
  rewrite nth_error_map.
  rewrite (nth_error_nth' _ (0, 0)) by (rewrite accumulate_all_length; lia).
  cbn [option_map]. eexists. eexists. split; [reflexivity|].
  destruct (accumulate_all_nth_any added
              (map (fun _ : Z => ((0, 0) : channel)) (py_range channels)) k)
    as [Hf Hs]; [lia|].
  rewrite zero_rows_nth in Hf, Hs. cbn [fst snd] in Hf, Hs.
  assert (Hnz : ~ inject_Z total_tests == 0)
    by (apply inject_Z_nonzero; lia).
  unfold column_mean. rewrite Hcount. split.
  - rewrite Hf. field. exact Hnz.
  - rewrite Hs. field. exact Hnz.
Qed.

End CollectProperties.

(** ** [search_for_TLE] *)

Lemma prefix_append (sub s : string) :
  String.prefix sub s = true <-> exists post : string, s = (sub ++ post)%string.
Proof.
  revert s. induction sub as [|a sub IH]; intros s.
  - destruct s; simpl; split; intros _; try reflexivity; eexists; reflexivity.
  - destruct s as [|b s]; simpl.
    + split; [discriminate|]. intros [post H]. discriminate.
    + destruct (Ascii.ascii_dec a b) as [->|Hab].
      * rewrite IH. split; intros [post H]; exists post.
        -- now rewrite H.
        -- now injection H.
      * split; [discriminate|]. intros [post H]. congruence.
Qed.

(** [str_in] is the substring test. *)
Lemma str_in_spec (sub s : string) :
  str_in sub s = true
  <-> exists pre post : string, s = (pre ++ sub ++ post)%string.
Proof.
  induction s as [|c s IH]; cbn [str_in].
  - destruct (String.prefix sub "") eqn:Ep.
    + split; [|reflexivity]. intros _.
      apply prefix_append in Ep. destruct Ep as [post H].
      exists ""%string, post. exact H.
    + split; [discriminate|]. intros (pre & post & H).
      destruct pre; simpl in H.
      * assert (E : String.prefix sub "" = true)
          by (apply prefix_append; now exists post).
        congruence.
      * discriminate.
  - destruct (String.prefix sub (String c s)) eqn:Ep.
    + split; [|reflexivity]. intros _.
      apply prefix_append in Ep. destruct Ep as [post H].
      exists ""%string, post. exact H.
    + rewrite IH. split.
      * intros (pre & post & H). exists (String c pre), post.
        simpl. now rewrite H.
      * intros (pre & post & H). destruct pre as [|c' pre]; simpl in H.
        -- assert (E : String.prefix sub (String c s) = true)
             by (apply prefix_append; now exists post).
           congruence.
        -- injection H as _ H. now exists pre, post.
Qed.

Lemma py_split_nonempty (sep : ascii) (s : string) : py_split sep s <> [].
Proof.
  destruct s as [|c s]; cbn [py_split]; [discriminate|].
  destruct (Ascii.eqb c sep); [discriminate|].
  destruct (py_split sep s); discriminate.
Qed.

(** Joining the fields of [py_split] with the separator gives the string
    back. *)
Lemma py_split_join (sep : ascii) (s : string) :
  String.concat (String sep "") (py_split sep s) = s.
Proof.
  induction s as [|c s IH]; [reflexivity|].
  cbn [py_split].
  assert (Hne := py_split_nonempty sep s).
  destruct (py_split sep s) as [|f fs]; [contradiction|].
  destruct (Ascii.eqb_spec c sep) as [->|Hc].
  - cbn [String.concat] in *. simpl. now rewrite <- IH.
  - destruct fs as [|g fs]; simpl in *; now rewrite <- IH.
Qed.

Lemma py_range3_step (n : nat) :
  py_range3 (3 + n) = 0%nat :: map (fun l => (l + 3)%nat) (py_range3 n).
Proof.
  unfold py_range3.
  replace ((3 + n + 2) / 3)%nat with (S ((n + 2) / 3)).
  - cbn [seq map]. rewrite <- seq_shift, !map_map. f_equal.
    apply map_ext. intros k. lia.
  - replace (3 + n + 2)%nat with (n + 2 + 1 * 3)%nat by lia.
    rewrite Nat.div_add by discriminate. lia.
Qed.

Lemma search_groups_shift (search_text search_field a b c : string)
    (rest : list string) (ls : list nat) :
  search_groups search_text search_field (a :: b :: c :: rest)
    (map (fun l => (l + 3)%nat) ls)
  = search_groups search_text search_field rest ls.
Proof.
  induction ls as [|l ls IH]; [reflexivity|].
  cbn [map search_groups].
  replace (l + 3)%nat with (S (S (S l))) by lia.
  cbn [Nat.add nth_error]. rewrite IH. reflexivity.
Qed.

Lemma search_for_TLE_group (search_text search_field name line1 line2 : string)
    (rest : list string) :
  search_for_TLE search_text search_field (name :: line1 :: line2 :: rest)
  = if String.eqb search_field "name" then
      if str_in search_text name then FoundTLE name line1 line2
      else search_for_TLE search_text search_field rest
    else if String.eqb search_field "catalog" then
      match nth_error (py_split " " line2) 1 with
      | None => RaiseIndexError
      | Some number =>
          if String.eqb search_text number then FoundTLE name line1 line2
          else search_for_TLE search_text search_field rest
      end
    else search_for_TLE search_text search_field rest.
Proof.
  unfold search_for_TLE.
  change (length (name :: line1 :: line2 :: rest)) with (3 + length rest)%nat.
  rewrite py_range3_step. cbn [search_groups Nat.add nth_error].
  rewrite search_groups_shift. reflexivity.
Qed.

Lemma search_for_TLE_group_miss (search_text search_field name line1 line2 : string)
    (rest : list string) :
  group_matches search_text search_field name line2 = false ->
  (search_field = "catalog"%string ->
   nth_error (py_split " " line2) 1 <> None) ->
  search_for_TLE search_text search_field (name :: line1 :: line2 :: rest)
  = search_for_TLE search_text search_field rest.
Proof.
  intros Hm Hc. rewrite search_for_TLE_group. unfold group_matches in Hm.
  destruct (String.eqb search_field "name"); [now rewrite Hm|].
  destruct (String.eqb_spec search_field "catalog") as [E|_]; [|reflexivity].
  destruct (nth_error (py_split " " line2) 1) as [number|];
    [now rewrite Hm|].
  exfalso. now apply Hc.
Qed.

Lemma list_ind3 {A : Type} (P : list A -> Prop) :
  P [] -> (forall a, P [a]) -> (forall a b, P [a; b]) ->
  (forall a b c rest, P rest -> P (a :: b :: c :: rest)) ->
  forall l, P l.
Proof.
  intros H0 H1 H2 H3.
  fix IH 1. intros [|a [|b [|c rest]]];
    [exact H0|exact (H1 a)|exact (H2 a b)|exact (H3 a b c rest (IH rest))].
Qed.

Lemma tle_group_succ (a b c : string) (rest : list string) (j : nat) :
  tle_group (a :: b :: c :: rest) (S j) = tle_group rest j.
Proof.
  unfold tle_group.
  replace (3 * S j)%nat with (S (S (S (3 * j)))) by lia.
  reflexivity.
Qed.

Lemma tle_group_inv (lines : list string) (j : nat)
    (g : string * string * string) :
  tle_group lines j = Some g ->
  exists a b c rest, lines = a :: b :: c :: rest.
Proof.
  unfold tle_group. intros H.
  destruct lines as [|a [|b [|c rest]]].
  - destruct (3 * j)%nat; discriminate.
  - destruct j as [|j].
    + discriminate.
    + replace (3 * S j)%nat with (S (S (S (3 * j)))) in H by lia.
      simpl in H. destruct (3 * j)%nat; discriminate.
  - destruct j as [|j].
    + discriminate.
    + replace (3 * S j)%nat with (S (S (S (3 * j)))) in H by lia.
      simpl in H. destruct (3 * j)%nat; discriminate.
  - now exists a, b, c, rest.
Qed.

(** X18: when [search_for_TLE] returns three lines, they are the lines
    [3j], [3j+1], [3j+2] of the input for some [j], that group passes the
    test of the search field (the search text occurs in the name line, or
    equals the second space-separated field of line 2), and no group
    before it does. *)
Theorem search_for_TLE_found (search_text search_field : string)
    (lines : list string) (name line1 line2 : string) :
  search_for_TLE search_text search_field lines = FoundTLE name line1 line2 ->
  exists j : nat,
    tle_group lines j = Some (name, line1, line2)
    /\ group_matches search_text search_field name line2 = true
    /\ forall i : nat, (i < j)%nat ->
       exists n1 n2 n3 : string,
         tle_group lines i = Some (n1, n2, n3)
         /\ group_matches search_text search_field n1 n3 = false.
Proof.
  revert name line1 line2.
  induction lines as [| a | a b | a b c rest IH] using list_ind3;
    intros name line1 line2 H; try discriminate.
  rewrite search_for_TLE_group in H.
  assert (Hrest : search_for_TLE search_text search_field rest
                  = FoundTLE name line1 line2 ->
                  group_matches search_text search_field a c = false ->
                  exists j : nat,
                    tle_group (a :: b :: c :: rest) j = Some (name, line1, line2)
                    /\ group_matches search_text search_field name line2 = true
                    /\ forall i : nat, (i < j)%nat ->
                       exists n1 n2 n3 : string,
                         tle_group (a :: b :: c :: rest) i = Some (n1, n2, n3)
                         /\ group_matches search_text search_field n1 n3
                            = false).
  { intros Hr Hmiss. destruct (IH _ _ _ Hr) as (j & Hg & Hm & Hbefore).
    exists (S j). rewrite tle_group_succ.
    split; [exact Hg|]. split; [exact Hm|].
    intros [|i] Hi.
    - exists a, b, c. split; [reflexivity|exact Hmiss].
    - rewrite tle_group_succ. apply Hbefore. lia. }
  assert (Hhere : (name, line1, line2) = (a, b, c) ->
                  group_matches search_text search_field a c = true ->
                  exists j : nat,
                    tle_group (a :: b :: c :: rest) j = Some (name, line1, line2)
                    /\ group_matches search_text search_field name line2 = true
                    /\ forall i : nat, (i < j)%nat ->
                       exists n1 n2 n3 : string,
                         tle_group (a :: b :: c :: rest) i = Some (n1, n2, n3)
                         /\ group_matches search_text search_field n1 n3
                            = false).
  { intros [= -> -> ->] Hm. exists 0%nat.
    split; [reflexivity|]. split; [exact Hm|]. intros i Hi. lia. }
  assert (Hcase : (group_matches search_text search_field a c = true
                   /\ (name, line1, line2) = (a, b, c))
                  \/ (group_matches search_text search_field a c = false
                      /\ search_for_TLE search_text search_field rest
                         = FoundTLE name line1 line2)).
  { unfold group_matches.
    destruct (String.eqb search_field "name").
    - destruct (str_in search_text a).
      + left. injection H as <- <- <-. split; reflexivity.
      + right. split; [reflexivity|exact H].
    - destruct (String.eqb search_field "catalog").
      + destruct (nth_error (py_split " " c) 1) as [number|]; [|discriminate].
        destruct (String.eqb search_text number).
        * left. injection H as <- <- <-. split; reflexivity.
        * right. split; [reflexivity|exact H].
      + right. split; [reflexivity|exact H]. }
  destruct Hcase as [[Gm E]|[Gm Hr]]; [now apply Hhere|now apply Hrest].
Qed.

(** X19: a search by name finds the first group whose name line contains
    the search text: if group [j] is complete, its name line contains the
    text and no name line before it does, the three lines of group [j]
    are returned. *)
Theorem search_for_TLE_by_name_finds (search_text : string)
    (lines : list string) (j : nat) (name line1 line2 : string) :
  tle_group lines j = Some (name, line1, line2) ->
  str_in search_text name = true ->
  (forall (i : nat) (n1 n2 n3 : string), (i < j)%nat ->
     tle_group lines i = Some (n1, n2, n3) -> str_in search_text n1 = false) ->
  search_for_TLE search_text "name" lines = FoundTLE name line1 line2.
Proof.
  revert lines. induction j as [|j IH]; intros lines Hg Hs Hbefore;
    destruct (tle_group_inv _ _ _ Hg) as (a & b & c & rest & ->);
    rewrite search_for_TLE_group; cbn [String.eqb Ascii.eqb Bool.eqb].
  - injection Hg as <- <- <-. now rewrite Hs.
  - rewrite (Hbefore 0%nat a b c ltac:(lia) eq_refl).
    rewrite tle_group_succ in Hg. apply IH; [exact Hg|exact Hs|].
    intros i n1 n2 n3 Hi Hgi. apply (Hbefore (S i) n1 n2 n3); [lia|].
    now rewrite tle_group_succ.
Qed.

Lemma search_for_TLE_no_match (search_text search_field : string)
    (lines : list string) :
  (forall (j : nat) (n1 n2 n3 : string),
      tle_group lines j = Some (n1, n2, n3) ->
      group_matches search_text search_field n1 n3 = false
      /\ (search_field = "catalog"%string ->
          nth_error (py_split " " n3) 1 <> None)) ->
  search_for_TLE search_text search_field lines
  = if (length lines mod 3 =? 0)%nat then NoTLE else RaiseIndexError.
Proof.
  induction lines as [| a | a b | a b c rest IH] using list_ind3;
    intros Hall; try reflexivity.
  destruct (Hall 0%nat a b c eq_refl) as [Hm Hc].
  rewrite (search_for_TLE_group_miss _ _ _ _ _ _ Hm Hc).
  rewrite IH.
  - change (length (a :: b :: c :: rest)) with (3 + length rest)%nat.
    replace (3 + length rest)%nat with (length rest + 1 * 3)%nat by lia.
    now rewrite Nat.Div0.mod_add.
  - intros j n1 n2 n3 Hg. apply (Hall (S j) n1 n2 n3).
    now rewrite tle_group_succ.
Qed.

(** X20: a search by name that no name line satisfies returns
    [None, None, None] when the number of lines is a multiple of three,
    and raises [IndexError] otherwise (the last, incomplete group is read
    past the end of the list). *)
Theorem search_for_TLE_by_name_misses (search_text : string)
    (lines : list string) :
  (forall (j : nat) (n1 n2 n3 : string),
      tle_group lines j = Some (n1, n2, n3) -> str_in search_text n1 = false) ->
  search_for_TLE search_text "name" lines
  = if (length lines mod 3 =? 0)%nat then NoTLE else RaiseIndexError.
Proof.
  intros Hall. apply search_for_TLE_no_match.
  intros j n1 n2 n3 Hg. split.
  - unfold group_matches. cbn [String.eqb Ascii.eqb Bool.eqb].
    exact (Hall j n1 n2 n3 Hg).
  - discriminate.
Qed.

(** X21: with a search field other than ["name"] and ["catalog"] nothing
    is ever found, yet every group of three lines is still read: the
    result is [None, None, None] when the number of lines is a multiple
    of three and [IndexError] otherwise. *)
Theorem search_for_TLE_unknown_field (search_text search_field : string)
    (lines : list string) :
  search_field <> "name"%string -> search_field <> "catalog"%string ->
  search_for_TLE search_text search_field lines
  = if (length lines mod 3 =? 0)%nat then NoTLE else RaiseIndexError.
Proof.
  intros Hn Hc. apply search_for_TLE_no_match.
  intros j n1 n2 n3 _. split; [|intros E; contradiction].
  unfold group_matches.
  apply String.eqb_neq in Hn. apply String.eqb_neq in Hc.
  now rewrite Hn, Hc.
Qed.

(** X22: a search by catalogue number compares the search text with the
    second space-separated field of line 2 of each group in turn: the
    first group whose field equals the text is returned, and a group whose
    line 2 holds no space, met before any match, raises [IndexError]. *)
Theorem search_for_TLE_by_catalog (search_text : string)
    (lines : list string) (j : nat) (name line1 line2 : string) :
  tle_group lines j = Some (name, line1, line2) ->
  (forall (i : nat) (n1 n2 n3 : string), (i < j)%nat ->
     tle_group lines i = Some (n1, n2, n3) ->
     exists number : string,
       nth_error (py_split " " n3) 1 = Some number /\ number <> search_text) ->
  (nth_error (py_split " " line2) 1 = Some search_text ->
   search_for_TLE search_text "catalog" lines = FoundTLE name line1 line2)
  /\ (nth_error (py_split " " line2) 1 = None ->
      search_for_TLE search_text "catalog" lines = RaiseIndexError).
Proof.
  revert lines. induction j as [|j IH]; intros lines Hg Hbefore;
    destruct (tle_group_inv _ _ _ Hg) as (a & b & c & rest & ->);
    rewrite search_for_TLE_group; cbn [String.eqb Ascii.eqb Bool.eqb].
  - injection Hg as <- <- <-. split; intros Hf; rewrite Hf; [|reflexivity].
    now rewrite String.eqb_refl.
  - destruct (Hbefore 0%nat a b c ltac:(lia) eq_refl) as (number & Hn & Hne).
    rewrite Hn.
    replace (String.eqb search_text number) with false
      by (symmetry; apply String.eqb_neq; congruence).
    rewrite tle_group_succ in Hg. apply IH; [exact Hg|].
    intros i n1 n2 n3 Hi Hgi. apply (Hbefore (S i) n1 n2 n3); [lia|].
    now rewrite tle_group_succ.
Qed.

Lemma search_for_TLE_found_witness :
  search_for_TLE "AO-07" "name" Demo.tle_lines
  = FoundTLE "AO-07"
      "1 07530U 74089B   20344.45838889 -.00000028  00000-0  12570-3 0  9992"
      "2 07530 101.8031 312.0179 0012376  33.3092  36.6412 12.53644626109535"
  /\ exists j : nat,
       tle_group Demo.tle_lines j
       = Some ("AO-07"%string,
               "1 07530U 74089B   20344.45838889 -.00000028  00000-0  12570-3 0  9992"%string,
               "2 07530 101.8031 312.0179 0012376  33.3092  36.6412 12.53644626109535"%string).
Proof.
  assert (H : search_for_TLE "AO-07" "name" Demo.tle_lines
              = FoundTLE "AO-07"
                  "1 07530U 74089B   20344.45838889 -.00000028  00000-0  12570-3 0  9992"
                  "2 07530 101.8031 312.0179 0012376  33.3092  36.6412 12.53644626109535")
    by reflexivity.
  split; [exact H|].
  destruct (search_for_TLE_found _ _ _ _ _ _ H) as (j & Hg & _).
  exists j. exact Hg.
Defined.

Lemma search_for_TLE_by_name_finds_witness :
  tle_group Demo.tle_lines 0
  = Some ("ISS (ZARYA)"%string,
          "1 25544U 98067A   20344.91667824  .00001264  00000-0  30797-4 0  9997"%string,
          "2 25544  51.6441 202.3237 0001796  84.9642  41.4004 15.49180255259241"%string)
  /\ str_in "ISS" "ISS (ZARYA)" = true
  /\ search_for_TLE "ISS" "name" Demo.tle_lines
     = FoundTLE "ISS (ZARYA)"
         "1 25544U 98067A   20344.91667824  .00001264  00000-0  30797-4 0  9997"
         "2 25544  51.6441 202.3237 0001796  84.9642  41.4004 15.49180255259241".
Proof.
  assert (H1 : tle_group Demo.tle_lines 0
               = Some ("ISS (ZARYA)"%string,
                       "1 25544U 98067A   20344.91667824  .00001264  00000-0  30797-4 0  9997"%string,
                       "2 25544  51.6441 202.3237 0001796  84.9642  41.4004 15.49180255259241"%string))
    by reflexivity.
  assert (H2 : str_in "ISS" "ISS (ZARYA)" = true) by reflexivity.
  split; [exact H1|]. split; [exact H2|].
  apply (search_for_TLE_by_name_finds "ISS" Demo.tle_lines 0 _ _ _ H1 H2).
  intros i n1 n2 n3 Hi. lia.
Defined.

Lemma search_for_TLE_by_name_misses_witness :
  (forall (j : nat) (n1 n2 n3 : string),
      tle_group (firstn 5 Demo.tle_lines) j = Some (n1, n2, n3) ->
      str_in "SO-50" n1 = false)
  /\ search_for_TLE "SO-50" "name" (firstn 5 Demo.tle_lines) = RaiseIndexError.
Proof.
  assert (H : forall (j : nat) (n1 n2 n3 : string),
             tle_group (firstn 5 Demo.tle_lines) j = Some (n1, n2, n3) ->
             str_in "SO-50" n1 = false).
  { intros [|[|j]] n1 n2 n3 Hg.
    - injection Hg as <- _ _. reflexivity.
    - discriminate.
    - unfold tle_group in Hg.
      replace (3 * S (S j))%nat with (S (S (S (S (S (S (3 * j))))))) in Hg
        by lia.
      discriminate. }
  split; [exact H|].
  exact (search_for_TLE_by_name_misses "SO-50" (firstn 5 Demo.tle_lines) H).
Defined.

Lemma search_for_TLE_unknown_field_witness :
  "number"%string <> "name"%string /\ "number"%string <> "catalog"%string
  /\ search_for_TLE "25544" "number" Demo.tle_lines = NoTLE.
Proof.
  assert (H1 : "number"%string <> "name"%string) by discriminate.
  assert (H2 : "number"%string <> "catalog"%string) by discriminate.
  split; [exact H1|]. split; [exact H2|].
  exact (search_for_TLE_unknown_field "25544" "number" Demo.tle_lines H1 H2).
Defined.

Lemma search_for_TLE_by_catalog_witness :
  tle_group Demo.tle_lines 1
  = Some ("AO-07"%string,
          "1 07530U 74089B   20344.45838889 -.00000028  00000-0  12570-3 0  9992"%string,
          "2 07530 101.8031 312.0179 0012376  33.3092  36.6412 12.53644626109535"%string)
  /\ nth_error
       (py_split " "
          "2 07530 101.8031 312.0179 0012376  33.3092  36.6412 12.53644626109535")
       1 = Some "07530"%string
  /\ search_for_TLE "07530" "catalog" Demo.tle_lines
     = FoundTLE "AO-07"
         "1 07530U 74089B   20344.45838889 -.00000028  00000-0  12570-3 0  9992"
         "2 07530 101.8031 312.0179 0012376  33.3092  36.6412 12.53644626109535".
Proof.
  assert (H1 : tle_group Demo.tle_lines 1
               = Some ("AO-07"%string,
                       "1 07530U 74089B   20344.45838889 -.00000028  00000-0  12570-3 0  9992"%string,
                       "2 07530 101.8031 312.0179 0012376  33.3092  36.6412 12.53644626109535"%string))
    by reflexivity.
  assert (H2 : nth_error
                 (py_split " "
                    "2 07530 101.8031 312.0179 0012376  33.3092  36.6412 12.53644626109535")
                 1 = Some "07530"%string) by reflexivity.
  split; [exact H1|]. split; [exact H2|].
  apply (search_for_TLE_by_catalog "07530" Demo.tle_lines 1 _ _ _ H1);
    [|exact H2].
  intros [|i] n1 n2 n3 Hi Hg; [|lia].
  injection Hg as <- <- <-. exists "25544"%string.
  split; [reflexivity|discriminate].
Defined.

Lemma main_collect_then_average_witness :
  exists (memory_sets : list (list channel)) (p : Pass) (o : Observer),
    main_collect Sample.range_velocity Sample.next_pass_of 3 2 Sample.sat 2
      Sample.rx_freq Sample.tx_freq None Sample.obs
    = Some (Ok (Proceed memory_sets p), o)
    /\ Z.of_nat (length memory_sets) = 2%Z
    /\ exists average_memory : list channel,
         main_average_memory 2 2 memory_sets = Ok average_memory
         /\ length average_memory = Z.to_nat 2.
Proof.
  eexists. eexists. eexists.
  assert (H : main_collect Sample.range_velocity Sample.next_pass_of 3 2
                Sample.sat 2 Sample.rx_freq Sample.tx_freq None Sample.obs
              = Some (Ok (Proceed _ _), _)) by (vm_compute; reflexivity).
  split; [exact H|].
  destruct (main_collect_then_average _ _ _ _ _ _ _ _ _ _ _ _ H)
    as (_ & Hlen & _ & _ & avg & Ha & Hl & _).
  split; [exact Hlen|]. exists avg. split; assumption.
Defined.
